(** * REANA-Server: identity store, user administration, webhook resolution
      and analysis dispatch

    A shallow embedding of [reana_server/utils.py] and
    [reana_server/rest/analyses.py].

    Python exceptions are values of [exn]; a computation that may raise and
    that reads or changes some state [S] (the SQLAlchemy session, or the log
    of calls made to remote services) lives in the monad [M S].  An exception
    keeps the state reached when it was raised, as in Python. *)

From Stdlib Require Import String Ascii List Bool Arith ZArith Lia.
Import ListNotations.
Local Open Scope string_scope.
Local Open Scope list_scope.

(* ================================================================== *)
(** ** Exceptions and results *)
(* ================================================================== *)

Inductive exn : Type :=
| Exception_ (msg : string)            (* a plain [Exception(msg)] *)
| KeyError (key : string)
| BadRequestKeyError (key : string)    (* werkzeug, a subclass of KeyError *)
| ValueError (msg : string)
| AttributeError (msg : string)
| UnboundLocalError (var : string)
| IndexError (msg : string)
| TypeError (msg : string)
| IntegrityError
| InvalidRequestError
| MultipleResultsFound
| CsvError (msg : string)
| OtherError (cls msg : string).       (* raised by a collaborator *)

(** [except KeyError] also catches the subclasses of KeyError. *)
Definition is_KeyError (e : exn) : bool :=
  match e with
  | KeyError _ | BadRequestKeyError _ => true
  | _ => false
  end.

(** [except (InvalidRequestError, IntegrityError)]. *)
Definition is_sqlalchemy_error (e : exn) : bool :=
  match e with
  | InvalidRequestError | IntegrityError => true
  | _ => false
  end.

(** [str(e)]: the message of the exception; a KeyError prints the repr of
    its key. *)
Definition str_exn (e : exn) : string :=
  match e with
  | Exception_ msg => msg
  | KeyError key => "'" ++ key ++ "'"
  | BadRequestKeyError _ =>
      "400 Bad Request: The browser (or proxy) sent a request that this server could not understand."
  | ValueError msg => msg
  | AttributeError msg => msg
  | UnboundLocalError var =>
      "local variable '" ++ var ++ "' referenced before assignment"
  | IndexError msg => msg
  | TypeError msg => msg
  | IntegrityError => "IntegrityError"
  | InvalidRequestError => "InvalidRequestError"
  | MultipleResultsFound => "Multiple rows were found for one_or_none()"
  | CsvError msg => msg
  | OtherError _ msg => msg
  end.

Inductive result (A : Type) : Type :=
| Ok (a : A)
| Raise (e : exn).
Arguments Ok {A} a.
Arguments Raise {A} e.

(* ================================================================== *)
(** ** The state-and-exception monad *)
(* ================================================================== *)

Definition M (S A : Type) : Type := S -> result A * S.

Definition ret {S A} (a : A) : M S A := fun s => (Ok a, s).

Definition raise {S A} (e : exn) : M S A := fun s => (Raise e, s).

Definition bind {S A B} (m : M S A) (k : A -> M S B) : M S B :=
  fun s =>
    match m s with
    | (Ok a, s') => k a s'
    | (Raise e, s') => (Raise e, s')
    end.

(** A pure step that may raise. *)
Definition lift {S A} (r : result A) : M S A := fun s => (r, s).

(** [try: body  except C1 as e: h1 e  except C2 as e: h2 e ...]: the first
    clause whose class test accepts the exception handles it; an exception
    raised by a handler, or caught by no clause, propagates. *)
Fixpoint dispatch {S A} (clauses : list ((exn -> bool) * (exn -> M S A)))
    (e : exn) : M S A :=
  match clauses with
  | [] => raise e
  | (catches, handler) :: rest =>
      if catches e then handler e else dispatch rest e
  end.

Definition try_except {S A} (body : M S A)
    (clauses : list ((exn -> bool) * (exn -> M S A))) : M S A :=
  fun s =>
    match body s with
    | (Ok a, s') => (Ok a, s')
    | (Raise e, s') => dispatch clauses e s'
    end.

(** [except Exception]. *)
Definition is_Exception (e : exn) : bool := true.

Declare Scope py_scope.
Delimit Scope py_scope with py.
Notation "x <- m ;; k" := (bind m (fun x => k))
  (at level 61, m at next level, right associativity) : py_scope.
Notation "m ;;; k" := (bind m (fun _ => k))
  (at level 61, right associativity) : py_scope.
Local Open Scope py_scope.

(** [for x in xs: body x]. *)
Fixpoint for_each {S A} (xs : list A) (body : A -> M S unit) : M S unit :=
  match xs with
  | [] => ret tt
  | x :: rest => body x ;;; for_each rest body
  end.

(** A local variable that some paths never assign: reading it while unbound
    raises UnboundLocalError. *)
Definition load_local {S A} (name : string) (v : option A) : M S A :=
  match v with
  | Some a => ret a
  | None => raise (UnboundLocalError name)
  end.

(* ================================================================== *)
(** ** Python values (decoded JSON and YAML documents) *)
(* ================================================================== *)

#[local] Set Warnings "-register-all".
Inductive value : Type :=
| VNone
| VBool (b : bool)
| VInt (z : Z)
| VStr (s : string)
| VList (items : list value)
| VDict (entries : list (string * value)).

Fixpoint assoc {A} (key : string) (entries : list (string * A)) : option A :=
  match entries with
  | [] => None
  | (k, v) :: rest => if String.eqb k key then Some v else assoc key rest
  end.

(** [d[key]] for a string key. *)
Definition getitem (d : value) (key : string) : result value :=
  match d with
  | VDict entries =>
      match assoc key entries with
      | Some v => Ok v
      | None => Raise (KeyError key)
      end
  | VList _ => Raise (TypeError "list indices must be integers or slices, not str")
  | VStr _ => Raise (TypeError "string indices must be integers")
  | VNone => Raise (TypeError "'NoneType' object is not subscriptable")
  | VBool _ => Raise (TypeError "'bool' object is not subscriptable")
  | VInt _ => Raise (TypeError "'int' object is not subscriptable")
  end.

(** [v == s] for a string literal [s]. *)
Definition eq_str (v : value) (s : string) : bool :=
  match v with
  | VStr x => String.eqb x s
  | _ => false
  end.

(** Truthiness of an optional string argument ([None] and the empty string
    are false). *)
Definition truthy (o : option string) : bool :=
  match o with
  | Some s => negb (String.eqb s EmptyString)
  | None => false
  end.

(* ================================================================== *)
(** ** Configuration ([reana_server.config], [app.config]) *)
(* ================================================================== *)

Record config : Type := {
  ADMIN_USER_ID : string;
  REANA_GITLAB_URL : string;
  AVAILABLE_WORKFLOW_ENGINES : list string
}.

(* ================================================================== *)
(** ** The user table and the SQLAlchemy session *)
(* ================================================================== *)

Module User.
(** A row of [reana_db.models.User]; the id is kept as its string form. *)
Record t : Type := mk { id_ : string; email : string; access_token : string }.
End User.

(** Modelled from the spec: the uniqueness constraints of the user table
    ([reana_db] is not part of this repository).  Two rows clash when they
    share the id, the email or the access token. *)
Definition clash (u v : User.t) : bool :=
  String.eqb (User.id_ u) (User.id_ v)
  || String.eqb (User.email u) (User.email v)
  || String.eqb (User.access_token u) (User.access_token v).

(** The session: the rows of the table, and the objects added to the
    session and not yet flushed.  Queries read the table (the session is
    created with autoflush off). *)
Record Session : Type := mkSession {
  db : list User.t;
  pending : list User.t
}.

(** The INSERTs of a flush, one row after the other inside one transaction;
    [None] when a row violates a uniqueness constraint. *)
Fixpoint flush (table new : list User.t) : option (list User.t) :=
  match new with
  | [] => Some table
  | u :: rest =>
      if existsb (clash u) table then None else flush (table ++ [u]) rest
  end.

Definition Session_add (user : User.t) : M Session unit :=
  fun s => (Ok tt, mkSession (db s) (pending s ++ [user])).

(** [Session.commit()]: flush and commit; a failed flush rolls the
    transaction back (the table is as before, the new objects are expunged)
    and raises IntegrityError. *)
Definition Session_commit : M Session unit :=
  fun s =>
    match flush (db s) (pending s) with
    | Some table => (Ok tt, mkSession table [])
    | None => (Raise IntegrityError, mkSession (db s) [])
    end.

Definition Session_rollback : M Session unit :=
  fun s => (Ok tt, mkSession (db s) []).

Definition Session_remove : M Session unit :=
  fun s => (Ok tt, mkSession (db s) []).

(** Columns of the table, for the keyword criteria of [filter_by]. *)
Inductive column : Type := Col_id_ | Col_email | Col_access_token.

Definition column_of (c : column) (u : User.t) : string :=
  match c with
  | Col_id_ => User.id_ u
  | Col_email => User.email u
  | Col_access_token => User.access_token u
  end.

Definition matches (criteria : list (column * string)) (u : User.t) : bool :=
  forallb (fun cv => String.eqb (column_of (fst cv) u) (snd cv)) criteria.

(** [Session.query(User).filter_by(...).all()]. *)
Definition query_all (criteria : list (column * string)) : M Session (list User.t) :=
  fun s => (Ok (filter (matches criteria) (db s)), s).

(** [.one_or_none()]. *)
Definition one_or_none (rows : list User.t) : result (option User.t) :=
  match rows with
  | [] => Ok None
  | [u] => Ok (Some u)
  | _ :: _ :: _ => Raise MultipleResultsFound
  end.

Definition query_one_or_none (criteria : list (column * string))
  : M Session (option User.t) :=
  rows <- query_all criteria ;; lift (one_or_none rows).

(** [user.access_token] where [user] may be [None]. *)
Definition getattr_access_token (user : option User.t) : result string :=
  match user with
  | Some u => Ok (User.access_token u)
  | None => Raise (AttributeError "'NoneType' object has no attribute 'access_token'")
  end.

(** Values drawn by one creation of a user: [secrets.token_urlsafe(16)] and
    the default of the id column. *)
Record draws : Type := { token_urlsafe : string; generate_uuid : string }.

(* ================================================================== *)
(** ** [reana_server/utils.py]: users *)
(* ================================================================== *)

Definition get_user_from_token (access_token : string) : M Session User.t :=
  user <- query_one_or_none [(Col_access_token, access_token)] ;;
  match user with
  | None => raise (ValueError "Token not valid.")
  | Some u => ret u
  end.

(** The first two statements of every administrative operation
    ([_get_users], [_create_user], [_export_users], [_import_users]):
    [admin = ...filter_by(id_=ADMIN_USER_ID).one_or_none()] and
    [if admin_access_token != admin.access_token: raise ValueError(...)]. *)
Definition check_admin (cfg : config) (admin_access_token : string)
  : M Session unit :=
  admin <- query_one_or_none [(Col_id_, ADMIN_USER_ID cfg)] ;;
  token <- lift (getattr_access_token admin) ;;
  if negb (String.eqb admin_access_token token)
  then raise (ValueError "Admin access token invalid.")
  else ret tt.

Definition criterion (c : column) (v : option string) : list (column * string) :=
  match v with
  | Some s => if truthy v then [(c, s)] else []
  | None => []
  end.

Definition _get_users (cfg : config) (_id email user_access_token : option string)
    (admin_access_token : string) : M Session (list User.t) :=
  check_admin cfg admin_access_token ;;;
  let search_criteria :=
    criterion Col_id_ _id ++ criterion Col_email email
    ++ criterion Col_access_token user_access_token in
  users <- query_all search_criteria ;;
  ret users.

Definition _create_user (cfg : config) (rnd : draws) (email : string)
    (user_access_token : option string) (admin_access_token : string)
  : M Session User.t :=
  try_except
    (check_admin cfg admin_access_token ;;;
     let user_access_token :=
       match user_access_token with
       | Some s => if truthy user_access_token then s else token_urlsafe rnd
       | None => token_urlsafe rnd
       end in
     let user := User.mk (generate_uuid rnd) email user_access_token in
     Session_add user ;;;
     Session_commit ;;;
     ret user)
    [(is_sqlalchemy_error,
      fun _ =>
        Session_rollback ;;;
        raise (ValueError "Could not create user, possible constraint violation"))].

(* ================================================================== *)
(** ** The [csv] module, for the two dialects the code uses *)
(* ================================================================== *)

Module csv.

Definition quotechar : ascii := "034"%char.
Definition delimiter : ascii := ","%char.
Definition LF : ascii := "010"%char.
Definition CR : ascii := "013"%char.

Definition is_newline (c : ascii) : bool := Ascii.eqb c LF || Ascii.eqb c CR.

(** *** [csv.writer(f, dialect='unix')]: every field quoted, a quote inside a
    field doubled, fields joined by commas, the row ended by a line feed. *)

Fixpoint escape (field : string) : string :=
  match field with
  | EmptyString => EmptyString
  | String c rest =>
      if Ascii.eqb c quotechar
      then String quotechar (String quotechar (escape rest))
      else String c (escape rest)
  end.

Definition quoted (field : string) (after : string) : string :=
  String quotechar (escape field ++ String quotechar after).

Fixpoint join (fields : list string) (after : string) : string :=
  match fields with
  | [] => after
  | f :: rest =>
      quoted f (match rest with
                | [] => after
                | _ :: _ => String delimiter (join rest after)
                end)
  end.

Definition writerow (fields : list string) : string :=
  join fields (String LF EmptyString).

(** *** [csv.reader(f)], dialect excel, not strict: the parser of the C
    module, one character at a time, with an end-of-line marker after each
    line of the input.  The dialect has no escape character and does not
    skip initial spaces, so the states and branches for these are left out;
    fields stay below the field size limit of the module. *)

Inductive ParserState : Type :=
| START_RECORD | START_FIELD | IN_FIELD | IN_QUOTED_FIELD
| QUOTE_IN_QUOTED_FIELD | EAT_CRNL.

Record ReaderObj : Type := mkReader {
  state : ParserState;
  field : string;
  fields : list string
}.

Inductive input : Type := Chr (c : ascii) | EOL.

Definition parse_reset : ReaderObj := mkReader START_RECORD EmptyString [].

Definition set_state (r : ReaderObj) (st : ParserState) : ReaderObj :=
  mkReader st (field r) (fields r).

Definition parse_save_field (r : ReaderObj) : ReaderObj :=
  mkReader (state r) EmptyString (fields r ++ [field r]).

Definition parse_add_char (r : ReaderObj) (c : ascii) : ReaderObj :=
  mkReader (state r) (field r ++ String c EmptyString) (fields r).

(** The case START_FIELD, which START_RECORD falls through to. *)
Definition start_field (r : ReaderObj) (c : input) : result ReaderObj :=
  match c with
  | EOL => Ok (set_state (parse_save_field r) START_RECORD)
  | Chr ch =>
      if is_newline ch then Ok (set_state (parse_save_field r) EAT_CRNL)
      else if Ascii.eqb ch quotechar then Ok (set_state r IN_QUOTED_FIELD)
      else if Ascii.eqb ch delimiter then Ok (parse_save_field r)
      else Ok (set_state (parse_add_char r ch) IN_FIELD)
  end.

Definition parse_process_char (r : ReaderObj) (c : input) : result ReaderObj :=
  match state r with
  | START_RECORD =>
      match c with
      | EOL => Ok r
      | Chr ch =>
          if is_newline ch then Ok (set_state r EAT_CRNL)
          else start_field (set_state r START_FIELD) c
      end
  | START_FIELD => start_field r c
  | IN_FIELD =>
      match c with
      | EOL => Ok (set_state (parse_save_field r) START_RECORD)
      | Chr ch =>
          if is_newline ch then Ok (set_state (parse_save_field r) EAT_CRNL)
          else if Ascii.eqb ch delimiter
          then Ok (set_state (parse_save_field r) START_FIELD)
          else Ok (parse_add_char r ch)
      end
  | IN_QUOTED_FIELD =>
      match c with
      | EOL => Ok r
      | Chr ch =>
          if Ascii.eqb ch quotechar then Ok (set_state r QUOTE_IN_QUOTED_FIELD)
          else Ok (parse_add_char r ch)
      end
  | QUOTE_IN_QUOTED_FIELD =>
      match c with
      | EOL => Ok (set_state (parse_save_field r) START_RECORD)
      | Chr ch =>
          if Ascii.eqb ch quotechar
          then Ok (set_state (parse_add_char r ch) IN_QUOTED_FIELD)
          else if Ascii.eqb ch delimiter
          then Ok (set_state (parse_save_field r) START_FIELD)
          else if is_newline ch
          then Ok (set_state (parse_save_field r) EAT_CRNL)
          else Ok (set_state (parse_add_char r ch) IN_FIELD)
      end
  | EAT_CRNL =>
      match c with
      | EOL => Ok (set_state r START_RECORD)
      | Chr ch =>
          if is_newline ch then Ok r
          else Raise (CsvError "new-line character seen in unquoted field - do you need to open the file in universal-newline mode?")
      end
  end.

Definition is_START_RECORD (st : ParserState) : bool :=
  match st with START_RECORD => true | _ => false end.

Definition is_IN_QUOTED_FIELD (st : ParserState) : bool :=
  match st with IN_QUOTED_FIELD => true | _ => false end.

(** The input ends inside a record: the record read so far is returned when
    a field was begun, and nothing otherwise. *)
Definition end_of_input (r : ReaderObj) : list (list string) :=
  if negb (String.eqb (field r) EmptyString) || is_IN_QUOTED_FIELD (state r)
  then [fields (parse_save_field r)]
  else [].

(** The rows the reader yields over [text], and the error that ends the
    iteration if there is one.  A line ends after each line feed; [midline]
    tells that characters of the current line were already fed.  After each
    line the marker [EOL] is fed, and a record is complete when the parser
    is back in START_RECORD. *)
Fixpoint rows_from (r : ReaderObj) (midline : bool) (text : string)
  : list (list string) * option exn :=
  match text with
  | EmptyString =>
      if midline then
        match parse_process_char r EOL with
        | Raise e => ([], Some e)
        | Ok r' =>
            if is_START_RECORD (state r') then ([fields r'], None)
            else (end_of_input r', None)
        end
      else (end_of_input r, None)
  | String ch rest =>
      match parse_process_char r (Chr ch) with
      | Raise e => ([], Some e)
      | Ok r1 =>
          if Ascii.eqb ch LF then
            match parse_process_char r1 EOL with
            | Raise e => ([], Some e)
            | Ok r2 =>
                if is_START_RECORD (state r2)
                then let (rows, err) := rows_from parse_reset false rest in
                     (fields r2 :: rows, err)
                else rows_from r2 false rest
            end
          else rows_from r1 true rest
      end
  end.

Definition reader (text : string) : list (list string) * option exn :=
  rows_from parse_reset false text.

End csv.

(** [row[i]]. *)
Definition row_get (row : list string) (i : nat) : result string :=
  match nth_error row i with
  | Some x => Ok x
  | None => Raise (IndexError "list index out of range")
  end.

(** The StringIO that [_export_users] returns is kept as its contents. *)
Definition _export_users (cfg : config) (admin_access_token : string)
  : M Session string :=
  check_admin cfg admin_access_token ;;;
  users <- query_all [] ;;
  ret (fold_left
         (fun csv_file_obj user =>
            (csv_file_obj ++
             csv.writerow [User.id_ user; User.email user; User.access_token user])%string)
         users EmptyString).

Definition User_of_row (row : list string) : result User.t :=
  match row_get row 0, row_get row 1, row_get row 2 with
  | Ok i, Ok e, Ok t => Ok (User.mk i e t)
  | Raise x, _, _ => Raise x
  | _, Raise x, _ => Raise x
  | _, _, Raise x => Raise x
  end.

(** The body of the loop of [_import_users]. *)
Definition add_row (row : list string) : M Session unit :=
  user <- lift (User_of_row row) ;;
  Session_add user.

Definition _import_users (cfg : config) (admin_access_token : string)
    (users_csv_file : string) : M Session unit :=
  check_admin cfg admin_access_token ;;;
  let csv_reader := csv.reader users_csv_file in
  for_each (fst csv_reader) add_row ;;;
  match snd csv_reader with
  | Some e => raise e
  | None => ret tt
  end ;;;
  Session_commit ;;;
  Session_remove.

(** [d[key]] for a dict with string keys. *)
Definition subscript {A} (d : list (string * A)) (key : string) : result A :=
  match assoc key d with
  | Some v => Ok v
  | None => Raise (KeyError key)
  end.

(** [account_info] is a dict of dicts of strings, or [None] (the default);
    [sender], [token] and [response] are not used by the function. *)
Definition _create_and_associate_reana_user (rnd : draws)
    (account_info : option (list (string * list (string * string))))
  : M Session User.t :=
  try_except
    (info <- lift (match account_info with
                   | Some d => Ok d
                   | None => Raise (TypeError "'NoneType' object is not subscriptable")
                   end) ;;
     user_info <- lift (subscript info "user") ;;
     user_email <- lift (subscript user_info "email") ;;
     let search_criteria := [(Col_email, user_email)] in
     users <- query_all search_criteria ;;
     match users with
     | user :: _ => ret user
     | [] =>
         let user_access_token := token_urlsafe rnd in
         let user := User.mk (generate_uuid rnd) user_email user_access_token in
         Session_add user ;;;
         Session_commit ;;;
         ret user
     end)
    [(is_sqlalchemy_error,
      fun _ =>
        Session_rollback ;;;
        raise (ValueError "Could not create user, possible constraint violation"));
     (is_Exception,
      fun _ => raise (ValueError "Could not create user"))].

Definition _get_user_from_invenio_user (id : string) : M Session User.t :=
  user <- query_one_or_none [(Col_email, id)] ;;
  match user with
  | None => raise (ValueError "No users registered with this id")
  | Some u => ret u
  end.

(* ================================================================== *)
(** ** Collaborators: secret store, GitLab, workflow controller, parsers *)
(* ================================================================== *)

(** The URL [gitlab_api.format(project_id, reana_yaml, branch, gitlab_token)]
    kept as the values formatted into
    [REANA_GITLAB_URL/api/v4/projects/{0}/repository/files/{1}/raw?ref={2}&access_token={3}]. *)
Record raw_file_url : Type := {
  url_base : string;
  url_project_id : value;
  url_file : string;
  url_ref : value;
  url_access_token : string
}.

Definition gitlab_api_format (cfg : config) (project_id : value)
    (reana_yaml : string) (branch : value) (gitlab_token : string)
  : raw_file_url :=
  {| url_base := REANA_GITLAB_URL cfg;
     url_project_id := project_id;
     url_file := reana_yaml;
     url_ref := branch;
     url_access_token := gitlab_token |}.

(** What the code reads of a [requests] response. *)
Record Response : Type := { status_code : Z; content : string }.

(** The calls that leave the process. *)
Inductive call : Type :=
| Call_get_secret_value (owner key : string)
| Call_requests_get (url : raw_file_url)
| Call_create_yadage_workflow (yadage_payload : value)
    (organization user : option string)
| Call_get_workflows (organization user : string).

(** What the remote services and the parsing libraries answer. *)
Record collaborators : Type := {
  get_secret_value : string -> string -> result string;
  requests_get : raw_file_url -> result Response;
  yaml_load : string -> result value;
  decode_UTF8 : string -> result string;
  json_loads : string -> result value;
  create_yadage_workflow :
    value -> option string -> option string -> result value;
  get_workflows : string -> string -> result value
}.

(** A remote call: logged, then answered. *)
Definition remote {A} (c : call) (answer : result A) : M (list call) A :=
  fun log => (answer, log ++ [c]).

(* ================================================================== *)
(** ** [reana_server/utils.py]: the webhook *)
(* ================================================================== *)

(** The [if]/[elif] at the head of [_get_reana_yaml_from_gitlab]: the
    locals [branch] and [commit_sha] after it, [None] while unbound (there
    is no [else]). *)
Definition webhook_locals (webhook_data : value)
  : M (list call) (option value * option value) :=
  kind <- lift (getitem webhook_data "object_kind") ;;
  if eq_str kind "push" then
    project <- lift (getitem webhook_data "project") ;;
    branch <- lift (getitem project "default_branch") ;;
    commit_sha <- lift (getitem webhook_data "checkout_sha") ;;
    ret (Some branch, Some commit_sha)
  else
    kind <- lift (getitem webhook_data "object_kind") ;;
    if eq_str kind "merge_request" then
      attrs <- lift (getitem webhook_data "object_attributes") ;;
      branch <- lift (getitem attrs "source_branch") ;;
      attrs <- lift (getitem webhook_data "object_attributes") ;;
      last_commit <- lift (getitem attrs "last_commit") ;;
      commit_sha <- lift (getitem last_commit "id") ;;
      ret (Some branch, Some commit_sha)
    else ret (None, None).

Definition _get_reana_yaml_from_gitlab (cfg : config) (env : collaborators)
    (webhook_data : value) (user_id : string)
  : M (list call) (value * value * value * value) :=
  let reana_yaml := "reana.yaml" in
  locals <- webhook_locals webhook_data ;;
  let branch := fst locals in
  let commit_sha := snd locals in
  gitlab_token <-
    remote (Call_get_secret_value user_id "gitlab_access_token")
           (get_secret_value env user_id "gitlab_access_token") ;;
  project <- lift (getitem webhook_data "project") ;;
  project_id <- lift (getitem project "id") ;;
  branch_ <- load_local "branch" branch ;;
  let url := gitlab_api_format cfg project_id reana_yaml branch_ gitlab_token in
  yaml_file <- remote (Call_requests_get url) (requests_get env url) ;;
  spec <- lift (yaml_load env (content yaml_file)) ;;
  project <- lift (getitem webhook_data "project") ;;
  path_with_namespace <- lift (getitem project "path_with_namespace") ;;
  branch_ <- load_local "branch" branch ;;
  commit_sha_ <- load_local "commit_sha" commit_sha ;;
  ret (spec, path_with_namespace, branch_, commit_sha_).

(* ================================================================== *)
(** ** [reana_server/rest/analyses.py] *)
(* ================================================================== *)

(** What the handlers read of the Flask request: the query arguments and
    the contents of the uploaded files. *)
Record request : Type := {
  args : list (string * string);
  files : list (string * string)
}.

(** [jsonify(body), status]. *)
Record http_response : Type := { body : value; status : Z }.

Definition message (e : exn) : value := VDict [("message", VStr (str_exn e))].

Definition get_analyses (env : collaborators) : M (list call) http_response :=
  try_except
    (let organization := "default" in
     let user := "00000000-0000-0000-0000-000000000000" in
     res <- remote (Call_get_workflows organization user)
                   (get_workflows env organization user) ;;
     ret {| body := res; status := 200 |})
    [(is_Exception, fun e => ret {| body := message e; status := 500 |})].

(** [x in engines] for [x = request.args.get(...)], which is [None] when the
    argument is missing. *)
Definition contains (engines : list string) (x : option string) : bool :=
  match x with
  | Some s => existsb (String.eqb s) engines
  | None => false
  end.

(** [x == s] for [x = request.args.get(...)] and a string literal [s]. *)
Definition is_engine (x : option string) (s : string) : bool :=
  match x with
  | Some e => String.eqb e s
  | None => false
  end.

(** [request.files[name]]. *)
Definition files_getitem (r : request) (name : string) : result string :=
  match assoc name (files r) with
  | Some f => Ok f
  | None => Raise (BadRequestKeyError name)
  end.

Definition create_analysis (cfg : config) (env : collaborators) (r : request)
  : M (list call) http_response :=
  try_except
    (let workflow_engine := assoc "workflow_engine" (args r) in
     (if negb (contains (AVAILABLE_WORKFLOW_ENGINES cfg) workflow_engine)
      then raise (Exception_ "Unknown workflow engine")
      else ret tt) ;;;
     binary_file <- lift (files_getitem r "analysis_payload") ;;
     text <- lift (decode_UTF8 env binary_file) ;;
     analysis_payload <- lift (json_loads env text) ;;
     res <-
       (if is_engine workflow_engine "yadage" then
          toplevel <- lift (getitem analysis_payload "toplevel") ;;
          workflow <- lift (getitem analysis_payload "workflow") ;;
          nparallel <- lift (getitem analysis_payload "nparallel") ;;
          preset_pars <- lift (getitem analysis_payload "preset_pars") ;;
          let yadage_payload :=
            VDict [("toplevel", toplevel); ("workflow", workflow);
                   ("nparallel", nparallel); ("preset_pars", preset_pars)] in
          let organization := assoc "organization" (args r) in
          let user := assoc "user" (args r) in
          res <- remote
                   (Call_create_yadage_workflow yadage_payload organization user)
                   (create_yadage_workflow env yadage_payload organization user) ;;
          ret (Some res)
        else ret None) ;;
     res_ <- load_local "res" res ;;
     ret {| body := res_; status := 200 |})
    [(is_KeyError, fun e => ret {| body := message e; status := 400 |});
     (is_Exception, fun e => ret {| body := message e; status := 500 |})].

(* ================================================================== *)
(** ** [reana_server/utils.py]: [is_uuid_v4], with what it uses of [str]
       and [uuid.UUID] *)
(* ================================================================== *)

Module str.

(** [s.replace(old, '')] for a non-empty [old]: the occurrences of [old]
    are removed from left to right; [skip] counts the characters of an
    occurrence that are still to be dropped. *)
Fixpoint remove_from (old : string) (skip : nat) (s : string) : string :=
  match s with
  | EmptyString => EmptyString
  | String c rest =>
      match skip with
      | S k => remove_from old k rest
      | O =>
          if String.prefix old s
          then remove_from old (String.length old - 1) rest
          else String c (remove_from old 0 rest)
      end
  end.

Definition remove (old s : string) : string := remove_from old 0 s.

(** [c in chars]. *)
Fixpoint member (c : ascii) (chars : string) : bool :=
  match chars with
  | EmptyString => false
  | String x rest => Ascii.eqb c x || member c rest
  end.

Fixpoint lstrip (chars s : string) : string :=
  match s with
  | EmptyString => EmptyString
  | String c rest => if member c chars then lstrip chars rest else s
  end.

Fixpoint rstrip (chars s : string) : string :=
  match s with
  | EmptyString => EmptyString
  | String c rest =>
      match rstrip chars rest with
      | EmptyString => if member c chars then EmptyString else String c EmptyString
      | String x kept => String c (String x kept)
      end
  end.

(** [s.strip(chars)]. *)
Definition strip (chars s : string) : string := rstrip chars (lstrip chars s).

Definition hexdigits : string := "0123456789abcdef".

(** The digit of ['%x']. *)
Definition hexdigit (d : Z) : ascii :=
  match String.get (Z.to_nat d) hexdigits with
  | Some c => c
  | None => "0"%char
  end.

(** The [width] low hexadecimal digits of [n], the highest first. *)
Fixpoint hex_fixed (width : nat) (n : Z) : string :=
  match width with
  | O => EmptyString
  | S w => String (hexdigit ((n / 16 ^ Z.of_nat w) mod 16)) (hex_fixed w n)
  end.

(** ['%032x' % n] for [0 <= n]: the hexadecimal digits of [n], padded with
    zeros to 32 digits. *)
Definition format_032x (n : Z) : string :=
  hex_fixed (Nat.max 32 (Z.to_nat (Z.log2 n / 4 + 1))) n.

End str.

Module uuid.

(** [UUID(hex, version=version)]: the field [int] of the object, or the
    exception.  [int_] is the builtin [int(_, 16)]. *)
Definition UUID (int_ : string -> result Z) (hex : string) (version : Z)
  : result Z :=
  let hex := str.remove "uuid:" (str.remove "urn:" hex) in
  let hex := str.remove "-" (str.strip "{}" hex) in
  if negb (String.length hex =? 32)%nat
  then Raise (ValueError "badly formed hexadecimal UUID string")
  else
    match int_ hex with
    | Raise e => Raise e
    | Ok int =>
        if negb ((0 <=? int)%Z && (int <? Z.shiftl 1 128)%Z)
        then Raise (ValueError "int is out of range (need a 128-bit value)")
        else if negb ((1 <=? version)%Z && (version <=? 5)%Z)
        then Raise (ValueError "illegal version number")
        else
          let int := Z.land int (Z.lnot (Z.shiftl 0xc000 48)) in
          let int := Z.lor int (Z.shiftl 0x8000 48) in
          let int := Z.land int (Z.lnot (Z.shiftl 0xf000 64)) in
          let int := Z.lor int (Z.shiftl version 76) in
          Ok int
    end.

(** [uuid.hex]. *)
Definition hex (int : Z) : string := str.format_032x int.

End uuid.

Definition is_uuid_v4 (int_ : string -> result Z) (uuid_or_name : string)
  : bool :=
  match uuid.UUID int_ uuid_or_name 4 with
  | Raise _ => false
  | Ok uuid => String.eqb (uuid.hex uuid) (str.remove "-" uuid_or_name)
  end.

(* ================================================================== *)
(** ** [reana_server/utils.py]: [_format_gitlab_secrets], with what it
       uses of [str], [bytes] and [base64] *)
(* ================================================================== *)

(** A Python [str] is kept as the string of its code points, which are
    below 256 here; [bytes] are kept as the string of the bytes. *)
Module utf8.

(** The bytes of one code point: itself below 128, else a lead byte
    [110000xx] and a continuation byte [10xxxxxx]. *)
Definition encode_char (c : ascii) : string :=
  match c with
  | Ascii c0 c1 c2 c3 c4 c5 c6 c7 =>
      if c7
      then String (Ascii c6 c7 false false false false true true)
             (String (Ascii c0 c1 c2 c3 c4 c5 false true) EmptyString)
      else String c EmptyString
  end.

(** [s.encode('utf-8')]. *)
Fixpoint encode (s : string) : string :=
  match s with
  | EmptyString => EmptyString
  | String c rest => encode_char c ++ encode rest
  end.

(** [b.decode('utf-8')], for the bytes of code points below 256; [None]
    stands for UnicodeDecodeError. *)
Fixpoint decode (b : string) : option string :=
  match b with
  | EmptyString => Some EmptyString
  | String (Ascii c0 c1 c2 c3 c4 c5 c6 false) rest =>
      match decode rest with
      | Some s => Some (String (Ascii c0 c1 c2 c3 c4 c5 c6 false) s)
      | None => None
      end
  | String (Ascii c6 true false false false false true true)
      (String (Ascii c0 c1 c2 c3 c4 c5 false true) rest) =>
      match decode rest with
      | Some s => Some (String (Ascii c0 c1 c2 c3 c4 c5 c6 true) s)
      | None => None
      end
  | String _ _ => None
  end.

End utf8.

Module base64.

Definition alphabet : string :=
  "ABCDEFGHIJKLMNOPQRSTUVWXYZabcdefghijklmnopqrstuvwxyz0123456789+/".

Definition bit (b : bool) (weight : nat) : nat := if b then weight else 0.

(** The character for six bits, the highest first. *)
Definition sextet (b5 b4 b3 b2 b1 b0 : bool) : ascii :=
  match String.get (bit b5 32 + bit b4 16 + bit b3 8 + bit b2 4 + bit b1 2 + bit b0 1)
          alphabet with
  | Some c => c
  | None => "A"%char
  end.

Definition pad : ascii := "="%char.

(** [base64.b64encode(s)]: three bytes give four characters; one or two
    bytes at the end give two or three characters and padding. *)
Fixpoint b64encode (s : string) : string :=
  match s with
  | EmptyString => EmptyString
  | String (Ascii a0 a1 a2 a3 a4 a5 a6 a7) EmptyString =>
      String (sextet a7 a6 a5 a4 a3 a2)
        (String (sextet a1 a0 false false false false)
           (String pad (String pad EmptyString)))
  | String (Ascii a0 a1 a2 a3 a4 a5 a6 a7)
      (String (Ascii b0 b1 b2 b3 b4 b5 b6 b7) EmptyString) =>
      String (sextet a7 a6 a5 a4 a3 a2)
        (String (sextet a1 a0 b7 b6 b5 b4)
           (String (sextet b3 b2 b1 b0 false false)
              (String pad EmptyString)))
  | String (Ascii a0 a1 a2 a3 a4 a5 a6 a7)
      (String (Ascii b0 b1 b2 b3 b4 b5 b6 b7)
         (String (Ascii c0 c1 c2 c3 c4 c5 c6 c7) rest)) =>
      String (sextet a7 a6 a5 a4 a3 a2)
        (String (sextet a1 a0 b7 b6 b5 b4)
           (String (sextet b3 b2 b1 b0 c7 c6)
              (String (sextet c5 c4 c3 c2 c1 c0) (b64encode rest))))
  end.

End base64.

(** The URL [REANA_GITLAB_URL + '/api/v4/user?access_token={0}'.format(...)],
    kept as the value formatted into it. *)
Record user_url : Type := {
  user_url_base : string;
  user_url_access_token : value
}.

(** [v.encode('utf-8')]: only a [str] has the method. *)
Definition encode_UTF8 (v : value) : result string :=
  match v with
  | VStr s => Ok (utf8.encode s)
  | VNone => Raise (AttributeError "'NoneType' object has no attribute 'encode'")
  | VBool _ => Raise (AttributeError "'bool' object has no attribute 'encode'")
  | VInt _ => Raise (AttributeError "'int' object has no attribute 'encode'")
  | VList _ => Raise (AttributeError "'list' object has no attribute 'encode'")
  | VDict _ => Raise (AttributeError "'dict' object has no attribute 'encode'")
  end.

(** [b.decode('utf-8')]. *)
Definition bytes_decode (b : string) : result string :=
  match utf8.decode b with
  | Some s => Ok s
  | None => Raise (OtherError "UnicodeDecodeError" "'utf-8' codec can't decode bytes")
  end.

(** [base64.b64encode(v.encode('utf-8')).decode('utf-8')]. *)
Definition b64_of (v : value) : result string :=
  match encode_UTF8 v with
  | Ok b => bytes_decode (base64.b64encode b)
  | Raise e => Raise e
  end.

(** [requests_get_user] is [requests.get] on the URL of the user; the
    state is the log of the URLs requested. *)
Definition _format_gitlab_secrets (cfg : config) (env : collaborators)
    (requests_get_user : user_url -> result Response)
    (gitlab_response : string) : M (list user_url) value :=
  response <- lift (json_loads env gitlab_response) ;;
  access_token <- lift (getitem response "access_token") ;;
  let url := {| user_url_base := REANA_GITLAB_URL cfg;
                user_url_access_token := access_token |} in
  answer <- (fun log => (requests_get_user url, log ++ [url])) ;;
  user <- lift (json_loads env (content answer)) ;;
  token_value <- lift (b64_of access_token) ;;
  username <- lift (getitem user "username") ;;
  user_value <- lift (b64_of username) ;;
  ret (VDict [("gitlab_access_token",
               VDict [("value", VStr token_value); ("type", VStr "env")]);
              ("gitlab_user",
               VDict [("value", VStr user_value); ("type", VStr "env")])]).

(* ================================================================== *)
(** ** Vocabulary of the statements *)
(* ================================================================== *)

Definition stores_token (token : string) (u : User.t) : bool :=
  String.eqb (User.access_token u) token.

Definition has_id (id : string) (u : User.t) : bool :=
  String.eqb (User.id_ u) id.

Definition has_email (email : string) (u : User.t) : bool :=
  String.eqb (User.email u) email.

(** The table satisfies its uniqueness constraints: no two rows clash. *)
Fixpoint unique_rows (table : list User.t) : bool :=
  match table with
  | [] => true
  | u :: rest => negb (existsb (clash u) rest) && unique_rows rest
  end.

(** [users] holds a row that clashes with a row of [table] or with a row
    before it in [users]. *)
Definition violates (table users : list User.t) : Prop :=
  exists before u after,
    users = before ++ u :: after /\ existsb (clash u) (table ++ before) = true.

(** The users of the rows that have the three columns. *)
Fixpoint users_of (rows : list (list string)) : list User.t :=
  match rows with
  | [] => []
  | row :: rest =>
      match User_of_row row with
      | Ok u => u :: users_of rest
      | Raise _ => users_of rest
      end
  end.

(** All rows as users, or the error of the first row that is too short. *)
Fixpoint collect (rows : list (list string)) : result (list User.t) :=
  match rows with
  | [] => Ok []
  | row :: rest =>
      match User_of_row row with
      | Raise e => Raise e
      | Ok u =>
          match collect rest with
          | Ok users => Ok (u :: users)
          | Raise e => Raise e
          end
      end
  end.

(** The user holds the first three columns of the row, as they are. *)
Definition verbatim (row : list string) (u : User.t) : Prop :=
  nth_error row 0 = Some (User.id_ u)
  /\ nth_error row 1 = Some (User.email u)
  /\ nth_error row 2 = Some (User.access_token u).

(** The email that [_create_and_associate_reana_user] reads,
    [account_info['user']['email']]. *)
Definition account_email
    (account_info : option (list (string * list (string * string))))
  : option string :=
  match account_info with
  | Some info =>
      match assoc "user" info with
      | Some user_info => assoc "email" user_info
      | None => None
      end
  | None => None
  end.

(** The id and the token drawn for a new user are used by no row. *)
Definition fresh (rnd : draws) (table : list User.t) : Prop :=
  forall u, In u table ->
    User.id_ u <> generate_uuid rnd /\ User.access_token u <> token_urlsafe rnd.

(** The row the export writes for a user. *)
Definition row_of_user (u : User.t) : list string :=
  [User.id_ u; User.email u; User.access_token u].

(** One written row per user, in the order of the table, and nothing else:
    no header row. *)
Fixpoint csv_of (users : list User.t) : string :=
  match users with
  | [] => EmptyString
  | u :: rest => csv.writerow (row_of_user u) ++ csv_of rest
  end.

(** The payload that [create_analysis] builds for yadage. *)
Definition yadage_payload_of (toplevel workflow nparallel preset_pars : value)
  : value :=
  VDict [("toplevel", toplevel); ("workflow", workflow);
         ("nparallel", nparallel); ("preset_pars", preset_pars)].

Definition unknown_engine : exn := Exception_ "Unknown workflow engine".

(** The two remote calls of a webhook resolution that reaches the fetch. *)
Definition fetch_calls (cfg : config) (user_id : string)
    (project_id branch : value) (gitlab_token : string) : list call :=
  [Call_get_secret_value user_id "gitlab_access_token";
   Call_requests_get
     (gitlab_api_format cfg project_id "reana.yaml" branch gitlab_token)].

(** The messages of the errors the code raises. *)
Definition token_not_valid : exn := ValueError "Token not valid.".
Definition admin_token_invalid : exn := ValueError "Admin access token invalid.".
Definition no_admin_record : exn :=
  AttributeError "'NoneType' object has no attribute 'access_token'".

(** The criterion [v] of [_get_users] on the column [c] lets the row pass;
    a criterion that is [None] or the empty string filters nothing. *)
Definition passes (c : column) (v : option string) (u : User.t) : Prop :=
  truthy v = true -> v = Some (column_of c u).

(** The access token [_create_user] gives the new user: the one supplied,
    or the drawn one when none (or an empty one) is supplied. *)
Definition token_for (rnd : draws) (user_access_token : option string) : string :=
  match user_access_token with
  | Some s => if truthy user_access_token then s else token_urlsafe rnd
  | None => token_urlsafe rnd
  end.

Definition constraint_violation : exn :=
  ValueError "Could not create user, possible constraint violation".

Definition no_user_with_id : exn := ValueError "No users registered with this id".
Definition could_not_create : exn := ValueError "Could not create user".
Definition index_out_of_range : exn := IndexError "list index out of range".

(** The row has the three columns the import reads. *)
Definition three_columns (row : list string) : Prop := 3 <= length row.

(** The fields [create_analysis] reads of a yadage document, in the order
    it reads them. *)
Definition yadage_fields : list string :=
  ["toplevel"; "workflow"; "nparallel"; "preset_pars"].

(** The first of these fields that a dict lacks. *)
Definition first_missing (entries : list (string * value)) : option string :=
  find (fun key => match assoc key entries with
                   | Some _ => false
                   | None => true
                   end) yadage_fields.

Definition zero_user : string := "00000000-0000-0000-0000-000000000000".

(** The status of the answer to an exception: 400 for a KeyError, 500 for
    any other. *)
Definition status_of (e : exn) : Z := if is_KeyError e then 400%Z else 500%Z.

Definition secret_call (user_id : string) : call :=
  Call_get_secret_value user_id "gitlab_access_token".

(** The value of a lower-case hexadecimal digit. *)
Fixpoint index_of (c : ascii) (chars : string) : option nat :=
  match chars with
  | EmptyString => None
  | String x rest =>
      if Ascii.eqb c x then Some O
      else match index_of c rest with
           | Some i => Some (S i)
           | None => None
           end
  end.

Definition digit_of (c : ascii) : option Z :=
  match index_of c str.hexdigits with
  | Some i => Some (Z.of_nat i)
  | None => None
  end.

(** The number a string of lower-case hexadecimal digits writes. *)
Fixpoint hex_value (s : string) : option Z :=
  match s with
  | EmptyString => Some 0%Z
  | String c rest =>
      match digit_of c, hex_value rest with
      | Some d, Some v => Some (d * 16 ^ Z.of_nat (String.length rest) + v)%Z
      | _, _ => None
      end
  end.

(** What the code needs of [int(_, 16)]: on digits it gives their value. *)
Definition reads_hex (int_ : string -> result Z) : Prop :=
  forall s v, s <> EmptyString -> hex_value s = Some v -> int_ s = Ok v.

Fixpoint all_chars (p : ascii -> bool) (s : string) : bool :=
  match s with
  | EmptyString => true
  | String c rest => p c && all_chars p rest
  end.

Definition is_hex (c : ascii) : bool :=
  match digit_of c with Some _ => true | None => false end.

Definition char_at (i : nat) (s : string) (chars : string) : bool :=
  match String.get i s with
  | Some c => str.member c chars
  | None => false
  end.

(** 32 lower-case hexadecimal digits, of which the 13th is 4 (the version)
    and the 17th is 8, 9, a or b (the variant). *)
Definition v4_hex (t : string) : bool :=
  (String.length t =? 32)%nat && all_chars is_hex t
  && char_at 12 t "4" && char_at 16 t "89ab".

Definition hex_or_hyphen (c : ascii) : bool := is_hex c || Ascii.eqb c "-".

(** The six bits of a character of the base64 alphabet, the highest first. *)
Definition sextet_bits (c : ascii)
  : option (bool * bool * bool * bool * bool * bool) :=
  match index_of c base64.alphabet with
  | Some i =>
      Some (Nat.testbit i 5, Nat.testbit i 4, Nat.testbit i 3,
            Nat.testbit i 2, Nat.testbit i 1, Nat.testbit i 0)
  | None => None
  end.

(** A decoder for base64: groups of four characters, of which the last
    group may end in padding. *)
Fixpoint b64decode (s : string) : option string :=
  match s with
  | EmptyString => Some EmptyString
  | String x1 (String x2 (String x3 (String x4 rest))) =>
      match sextet_bits x1, sextet_bits x2 with
      | Some (a7, a6, a5, a4, a3, a2), Some (a1, a0, b7, b6, b5, b4) =>
          let a := Ascii a0 a1 a2 a3 a4 a5 a6 a7 in
          if Ascii.eqb x3 base64.pad then
            match rest with
            | EmptyString =>
                if Ascii.eqb x4 base64.pad then Some (String a EmptyString)
                else None
            | String _ _ => None
            end
          else
            match sextet_bits x3 with
            | Some (b3, b2, b1, b0, c7, c6) =>
                let b := Ascii b0 b1 b2 b3 b4 b5 b6 b7 in
                if Ascii.eqb x4 base64.pad then
                  match rest with
                  | EmptyString => Some (String a (String b EmptyString))
                  | String _ _ => None
                  end
                else
                  match sextet_bits x4, b64decode rest with
                  | Some (c5, c4, c3, c2, c1, c0), Some bytes =>
                      Some (String a (String b
                              (String (Ascii c0 c1 c2 c3 c4 c5 c6 c7) bytes)))
                  | _, _ => None
                  end
            | None => None
            end
      | _, _ => None
      end
  | String _ _ => None
  end.

(** The text that a secret value stands for. *)
Definition decoded (secret_value : string) : option string :=
  match b64decode secret_value with
  | Some bytes => utf8.decode bytes
  | None => None
  end.

(** The two secrets [_format_gitlab_secrets] returns. *)
Definition gitlab_secrets (token_value user_value : string) : value :=
  VDict [("gitlab_access_token",
          VDict [("value", VStr token_value); ("type", VStr "env")]);
         ("gitlab_user",
          VDict [("value", VStr user_value); ("type", VStr "env")])].

Definition user_request (cfg : config) (access_token : value) : user_url :=
  {| user_url_base := REANA_GITLAB_URL cfg;
     user_url_access_token := access_token |}.

(** Where an exception raised inside the [try] of [create_analysis], after
    the engine was accepted, comes from: the upload is missing, or its
    decoding or parsing raised, or the yadage document lacks a field, or
    the dispatch call raised. *)
Inductive raised_in (env : collaborators) (r : request) (e : exn) : Prop :=
  | raised_by_upload :
      files_getitem r "analysis_payload" = Raise e ->
      raised_in env r e
  | raised_by_decoding bytes :
      files_getitem r "analysis_payload" = Ok bytes ->
      decode_UTF8 env bytes = Raise e ->
      raised_in env r e
  | raised_by_parsing bytes text :
      files_getitem r "analysis_payload" = Ok bytes ->
      decode_UTF8 env bytes = Ok text ->
      json_loads env text = Raise e ->
      raised_in env r e
  | raised_by_field bytes text document field :
      files_getitem r "analysis_payload" = Ok bytes ->
      decode_UTF8 env bytes = Ok text ->
      json_loads env text = Ok document ->
      is_engine (assoc "workflow_engine" (args r)) "yadage" = true ->
      In field yadage_fields ->
      getitem document field = Raise e ->
      raised_in env r e
  | raised_by_dispatch bytes text document toplevel workflow nparallel preset_pars :
      files_getitem r "analysis_payload" = Ok bytes ->
      decode_UTF8 env bytes = Ok text ->
      json_loads env text = Ok document ->
      is_engine (assoc "workflow_engine" (args r)) "yadage" = true ->
      getitem document "toplevel" = Ok toplevel ->
      getitem document "workflow" = Ok workflow ->
      getitem document "nparallel" = Ok nparallel ->
      getitem document "preset_pars" = Ok preset_pars ->
      create_yadage_workflow env
        (yadage_payload_of toplevel workflow nparallel preset_pars)
        (assoc "organization" (args r)) (assoc "user" (args r)) = Raise e ->
      raised_in env r e.

(* ================================================================== *)
(** ** Sample data *)
(* ================================================================== *)

Definition store_demo : Session :=
  mkSession [User.mk "00000000-0000-0000-0000-000000000000" "admin@reana.io" "s3cr3t";
             User.mk "7d3a" "jane@cern.ch" "tok-jane"] [].

Definition cfg_demo : config :=
  {| ADMIN_USER_ID := "00000000-0000-0000-0000-000000000000";
     REANA_GITLAB_URL := "https://gitlab.cern.ch";
     AVAILABLE_WORKFLOW_ENGINES := ["yadage"] |}.

Definition admin_demo : User.t :=
  User.mk "00000000-0000-0000-0000-000000000000" "admin@reana.io" "s3cr3t".

Definition draws_demo : draws :=
  {| token_urlsafe := "Zq3k9v0yTn1xW2b4Lr8pMA"; generate_uuid := "c0ffee" |}.

Definition NL : string := String csv.LF EmptyString.

(** Two rows, the second with the id of a user of [store_demo]. *)
Definition csv_colliding : string :=
  "9f1e,ann@cern.ch,tok-ann" ++ NL ++ "7d3a,bob@cern.ch,tok-bob" ++ NL.

Definition csv_disjoint : string :=
  "9f1e,ann@cern.ch,tok-ann" ++ NL ++ "52c0,bob@cern.ch,tok-bob" ++ NL.

Definition account_info_demo : option (list (string * list (string * string))) :=
  Some [("user", [("email", "ann@cern.ch")])].

(** Another deployment, with its own admin id. *)
Definition cfg_other : config :=
  {| ADMIN_USER_ID := "ffffffff-ffff-ffff-ffff-ffffffffffff";
     REANA_GITLAB_URL := "https://gitlab.cern.ch";
     AVAILABLE_WORKFLOW_ENGINES := ["yadage"] |}.

Definition admin_other : User.t :=
  User.mk "ffffffff-ffff-ffff-ffff-ffffffffffff" "root@reana.io" "r00t".

(** A request for an engine that the configuration does not list. *)
Definition request_unknown_engine : request :=
  {| args := [("organization", "default"); ("user", "7d3a");
              ("workflow_engine", "not-a-real-engine")];
     files := [("analysis_payload", "{}")] |}.

Definition request_yadage : request :=
  {| args := [("organization", "default"); ("user", "7d3a");
              ("workflow_engine", "yadage")];
     files := [("analysis_payload", "payload.json")] |}.

Definition document_demo : value :=
  VDict [("toplevel", VStr "workflow.yaml");
         ("workflow", VDict [("stages", VList [])]);
         ("nparallel", VInt 2);
         ("preset_pars", VDict [])].

Definition launched : value :=
  VDict [("message", VStr "Analysis successfully launched");
         ("workflow_id", VStr "cdcf48b1-c2f3-4693-8230-b066e088c6ac")].

Definition spec_demo : value :=
  VDict [("workflow", VDict [("type", VStr "serial")])].

(** Collaborators that answer every call. *)
Definition env_demo : collaborators :=
  {| get_secret_value := fun _ _ => Ok "glpat-jane";
     requests_get := fun _ => Ok {| status_code := 200; content := "workflow: {type: serial}" |};
     yaml_load := fun _ => Ok spec_demo;
     decode_UTF8 := fun bytes => Ok bytes;
     json_loads := fun _ => Ok document_demo;
     create_yadage_workflow := fun _ _ _ => Ok launched;
     get_workflows := fun _ _ => Ok (VList []) |}.

(** GitLab answers 404, with a body that is a YAML document. *)
Definition not_found : Response :=
  {| status_code := 404; content := "message: 404 File Not Found" |}.

Definition not_found_document : value :=
  VDict [("message", VStr "404 File Not Found")].

Definition env_404 : collaborators :=
  {| get_secret_value := fun _ _ => Ok "glpat-jane";
     requests_get := fun _ => Ok not_found;
     yaml_load := fun text =>
       if String.eqb text "message: 404 File Not Found"
       then Ok not_found_document
       else Raise (OtherError "YAMLError" "could not parse");
     decode_UTF8 := fun bytes => Ok bytes;
     json_loads := fun _ => Ok document_demo;
     create_yadage_workflow := fun _ _ _ => Ok launched;
     get_workflows := fun _ _ => Ok (VList []) |}.

Definition project_demo : value :=
  VDict [("id", VInt 42); ("default_branch", VStr "master");
         ("path_with_namespace", VStr "jane/analysis")].

Definition push_event : value :=
  VDict [("object_kind", VStr "push");
         ("checkout_sha", VStr "da1560886d4f");
         ("project", project_demo)].

Definition merge_request_event : value :=
  VDict [("object_kind", VStr "merge_request");
         ("object_attributes",
          VDict [("source_branch", VStr "fix-cuts");
                 ("last_commit", VDict [("id", VStr "b45e1c0a")])]);
         ("project", project_demo)].

(** An event of a kind the function has no branch for. *)
Definition tag_push_event : value :=
  VDict [("object_kind", VStr "tag_push");
         ("checkout_sha", VStr "da1560886d4f");
         ("project", project_demo)].

(** Two rows with a blank line between them. *)
Definition csv_blank_line : string :=
  "9f1e,ann@cern.ch,tok-ann" ++ NL ++ NL ++ "52c0,bob@cern.ch,tok-bob" ++ NL.

(** A configuration with a second engine, which the code has no branch
    for. *)
Definition cfg_two_engines : config :=
  {| ADMIN_USER_ID := "00000000-0000-0000-0000-000000000000";
     REANA_GITLAB_URL := "https://gitlab.cern.ch";
     AVAILABLE_WORKFLOW_ENGINES := ["yadage"; "cwl"] |}.

Definition request_cwl : request :=
  {| args := [("organization", "default"); ("user", "7d3a");
              ("workflow_engine", "cwl")];
     files := [("analysis_payload", "payload.json")] |}.

Definition request_without_upload : request :=
  {| args := [("organization", "default"); ("user", "7d3a");
              ("workflow_engine", "yadage")];
     files := [] |}.

(** A workflow controller that is down, and a document without
    [nparallel]. *)
Definition env_down : collaborators :=
  {| get_secret_value := fun _ _ => Ok "glpat-jane";
     requests_get := fun _ => Raise (OtherError "ConnectionError" "gitlab unreachable");
     yaml_load := fun _ => Ok spec_demo;
     decode_UTF8 := fun bytes => Ok bytes;
     json_loads := fun _ =>
       Ok (VDict [("toplevel", VStr "workflow.yaml"); ("workflow", VDict [])]);
     create_yadage_workflow := fun _ _ _ =>
       Raise (OtherError "HTTPError" "502 Bad Gateway");
     get_workflows := fun _ _ => Raise (OtherError "HTTPError" "502 Bad Gateway") |}.

Definition env_controller_down : collaborators :=
  {| get_secret_value := fun _ _ => Ok "glpat-jane";
     requests_get := fun _ => Ok {| status_code := 200; content := "workflow: {type: serial}" |};
     yaml_load := fun _ => Ok spec_demo;
     decode_UTF8 := fun bytes => Ok bytes;
     json_loads := fun _ => Ok document_demo;
     create_yadage_workflow := fun _ _ _ =>
       Raise (OtherError "HTTPError" "502 Bad Gateway");
     get_workflows := fun _ _ => Raise (OtherError "HTTPError" "502 Bad Gateway") |}.

(** A push event that lacks [checkout_sha]. *)
Definition push_event_without_sha : value :=
  VDict [("object_kind", VStr "push"); ("project", project_demo)].

(** An [int(_, 16)] that reads lower-case digits and nothing else. *)
Definition int_lower (s : string) : result Z :=
  match s, hex_value s with
  | String _ _, Some v => Ok v
  | _, _ => Raise (ValueError "invalid literal for int() with base 16")
  end.

(** GitLab answers the request for the user of a token. *)
Definition gitlab_user_demo (url : user_url) : result Response :=
  Ok {| status_code := 200; content := "user.json" |}.

(** A [json.loads] for the two documents of [_format_gitlab_secrets]. *)
Definition env_oauth : collaborators :=
  {| get_secret_value := fun _ _ => Ok "glpat-jane";
     requests_get := fun _ => Ok {| status_code := 200; content := "workflow: {type: serial}" |};
     yaml_load := fun _ => Ok spec_demo;
     decode_UTF8 := fun bytes => Ok bytes;
     json_loads := fun text =>
       if String.eqb text "user.json"
       then Ok (VDict [("id", VInt 7); ("username", VStr "jane")])
       else if String.eqb text "token.json"
       then Ok (VDict [("access_token", VStr "glpat-jane");
                       ("token_type", VStr "bearer")])
       else Ok (VDict [("error", VStr "invalid_grant")]);
     create_yadage_workflow := fun _ _ _ => Ok launched;
     get_workflows := fun _ _ => Ok (VList []) |}.

(** The same, with a response of GitLab whose token is a number. *)
Definition env_numeric_token : collaborators :=
  {| get_secret_value := get_secret_value env_oauth;
     requests_get := requests_get env_oauth;
     yaml_load := yaml_load env_oauth;
     decode_UTF8 := decode_UTF8 env_oauth;
     json_loads := fun text =>
       if String.eqb text "token.json"
       then Ok (VDict [("access_token", VInt 42)])
       else json_loads env_oauth text;
     create_yadage_workflow := create_yadage_workflow env_oauth;
     get_workflows := get_workflows env_oauth |}.

(* ================================================================== *)
(** * Properties *)
(* ================================================================== *)

(** ** Running the monad *)

Lemma bind_Ok {S A B} (m : M S A) (k : A -> M S B) s a s' :
  m s = (Ok a, s') -> bind m k s = k a s'.
Proof. intros H. unfold bind. now rewrite H. Qed.

Lemma bind_Raise {S A B} (m : M S A) (k : A -> M S B) s e s' :
  m s = (Raise e, s') -> bind m k s = (Raise e, s').
Proof. intros H. unfold bind. now rewrite H. Qed.

Lemma try_Ok {S A} (m : M S A) clauses s a s' :
  m s = (Ok a, s') -> try_except m clauses s = (Ok a, s').
Proof. intros H. unfold try_except. now rewrite H. Qed.

Lemma try_Raise {S A} (m : M S A) clauses s e s' :
  m s = (Raise e, s') -> try_except m clauses s = dispatch clauses e s'.
Proof. intros H. unfold try_except. now rewrite H. Qed.

(** Unfolds the combinators of the monad. *)
Ltac run_M :=
  unfold try_except, bind, ret, raise, lift, remote, load_local.

(** ** Queries *)

Lemma filter_ext_eq {A} (f g : A -> bool) (l : list A) :
  (forall x, f x = g x) -> filter f l = filter g l.
Proof. intros H. induction l as [|x l IH]; simpl; [easy|]. now rewrite H, IH. Qed.

Lemma filter_by_token token l :
  filter (matches [(Col_access_token, token)]) l = filter (stores_token token) l.
Proof.
  apply filter_ext_eq. intros u. unfold matches, stores_token. simpl.
  apply andb_true_r.
Qed.

Lemma filter_by_id id l :
  filter (matches [(Col_id_, id)]) l = filter (has_id id) l.
Proof.
  apply filter_ext_eq. intros u. unfold matches, has_id. simpl.
  apply andb_true_r.
Qed.

Lemma filter_by_email email l :
  filter (matches [(Col_email, email)]) l = filter (has_email email) l.
Proof.
  apply filter_ext_eq. intros u. unfold matches, has_email. simpl.
  apply andb_true_r.
Qed.

Lemma filter_all (l : list User.t) : filter (matches []) l = l.
Proof. induction l as [|x l IH]; simpl; [easy|]. now rewrite IH. Qed.

Lemma filter_nil_iff {A} (f : A -> bool) (l : list A) :
  filter f l = [] <-> forall x, In x l -> f x = false.
Proof.
  induction l as [|a l IH]; simpl.
  - split; [intros _ x []|easy].
  - destruct (f a) eqn:Fa.
    + split; [discriminate|]. intros H. specialize (H a (or_introl eq_refl)).
      congruence.
    + rewrite IH. split.
      * intros H x [<-|Hx]; auto.
      * intros H x Hx. apply H. now right.
Qed.

(** ** The admin check *)

Lemma check_admin_present cfg admin token s :
  filter (has_id (ADMIN_USER_ID cfg)) (db s) = [admin] ->
  check_admin cfg token s =
    if String.eqb token (User.access_token admin)
    then (Ok tt, s)
    else (Raise admin_token_invalid, s).
Proof.
  intros H. unfold check_admin, query_one_or_none, query_all. run_M.
  rewrite filter_by_id, H. simpl.
  now destruct (String.eqb token (User.access_token admin)).
Qed.

Lemma check_admin_absent cfg token s :
  filter (has_id (ADMIN_USER_ID cfg)) (db s) = [] ->
  check_admin cfg token s = (Raise no_admin_record, s).
Proof.
  intros H. unfold check_admin, query_one_or_none, query_all. run_M.
  now rewrite filter_by_id, H.
Qed.

Lemma check_admin_state cfg token s r s' :
  check_admin cfg token s = (r, s') -> s' = s.
Proof.
  unfold check_admin, query_one_or_none, query_all. run_M.
  destruct (one_or_none _) as [[u|]|e]; simpl.
  - destruct (negb _); intros [= _ <-]; reflexivity.
  - intros [= _ <-]; reflexivity.
  - intros [= _ <-]; reflexivity.
Qed.

Lemma check_admin_cases cfg token s :
  check_admin cfg token s = (Ok tt, s)
  \/ exists e, check_admin cfg token s = (Raise e, s).
Proof.
  destruct (check_admin cfg token s) as [[[]|e] s'] eqn:E;
    pose proof (check_admin_state _ _ _ _ _ E) as ->; eauto.
Qed.

Lemma append_nil_r (x : string) : (x ++ EmptyString)%string = x.
Proof. induction x as [|c x IH]; simpl; [easy|now rewrite IH]. Qed.

Lemma append_length (x y : string) :
  String.length (x ++ y) = String.length x + String.length y.
Proof. induction x as [|c x IH]; simpl; [easy|now rewrite IH]. Qed.

Lemma append_self_l (x y : string) : (x ++ y)%string = x -> y = EmptyString.
Proof.
  intros H. apply (f_equal String.length) in H. rewrite append_length in H.
  destruct y; [easy|]. simpl in H. lia.
Qed.

Lemma append_self_r (x y : string) : (y ++ x)%string = x -> y = EmptyString.
Proof.
  intros H. apply (f_equal String.length) in H. rewrite append_length in H.
  destruct y; [easy|]. simpl in H. lia.
Qed.

(** ** Resolving a token *)

(** C8. [get_user_from_token] (the spec's [resolve]): when exactly one row
    of the table stores the token, that row is returned; when no row stores
    it, the call fails with [ValueError('Token not valid.')], the code's
    authentication error.  The session is left as it was. *)
Theorem get_user_from_token_resolves (token : string) (s : Session) :
  (forall u, filter (stores_token token) (db s) = [u] ->
             get_user_from_token token s = (Ok u, s)
             /\ In u (db s) /\ User.access_token u = token)
  /\ ((forall u, In u (db s) -> User.access_token u <> token) ->
       get_user_from_token token s = (Raise token_not_valid, s)).
Proof.
  split.
  - intros u H. split.
    + unfold get_user_from_token, query_one_or_none, query_all. run_M.
      now rewrite filter_by_token, H.
    + assert (Hin : In u (filter (stores_token token) (db s)))
        by (rewrite H; now left).
      apply filter_In in Hin. destruct Hin as [Hin Htok]. split; [easy|].
      now apply String.eqb_eq.
  - intros H.
    assert (E : filter (stores_token token) (db s) = []).
    { apply filter_nil_iff. intros u Hu. apply String.eqb_neq. now apply H. }
    unfold get_user_from_token, query_one_or_none, query_all. run_M.
    now rewrite filter_by_token, E.
Qed.

Lemma get_user_from_token_resolves_witness :
  get_user_from_token "tok-jane" store_demo
    = (Ok (User.mk "7d3a" "jane@cern.ch" "tok-jane"), store_demo)
  /\ get_user_from_token "tok-joe" store_demo = (Raise token_not_valid, store_demo).
Proof.
  split.
  - apply (proj1 (get_user_from_token_resolves "tok-jane" store_demo)).
    reflexivity.
  - apply (proj2 (get_user_from_token_resolves "tok-joe" store_demo)).
    intros u Hu. simpl in Hu.
    destruct Hu as [<-|[<-|[]]]; simpl; discriminate.
Defined.

(** ** The admin token *)

Lemma _get_users_unfold cfg i e t token s :
  _get_users cfg i e t token s =
    match check_admin cfg token s with
    | (Ok _, s') =>
        (Ok (filter (matches (criterion Col_id_ i ++ criterion Col_email e
                              ++ criterion Col_access_token t)) (db s')), s')
    | (Raise x, s') => (Raise x, s')
    end.
Proof.
  unfold _get_users, query_all. run_M.
  now destruct (check_admin cfg token s) as [[[]|x] s'].
Qed.

Lemma _create_user_denied cfg rnd email t token s e :
  check_admin cfg token s = (Raise e, s) ->
  is_sqlalchemy_error e = false ->
  _create_user cfg rnd email t token s = (Raise e, s).
Proof.
  intros H He. unfold _create_user.
  erewrite try_Raise by (apply bind_Raise; exact H).
  simpl. now rewrite He.
Qed.

Lemma _export_users_denied cfg token s e :
  check_admin cfg token s = (Raise e, s) ->
  _export_users cfg token s = (Raise e, s).
Proof. intros H. unfold _export_users. now apply bind_Raise. Qed.

Lemma _import_users_denied cfg token text s e :
  check_admin cfg token s = (Raise e, s) ->
  _import_users cfg token text s = (Raise e, s).
Proof. intros H. unfold _import_users. now apply bind_Raise. Qed.

(** C5. The admin check that opens every administrative operation (the
    spec's [requireAdmin]).  With the admin record in the table, the check
    passes exactly when the candidate token equals the record's token; any
    other candidate, a proper prefix or suffix of the token included, makes
    the check, and with it [_get_users] and [_create_user], fail with
    [ValueError('Admin access token invalid.')], the code's authorization
    error, and leaves the session untouched. *)
Theorem check_admin_iff_token_equal cfg (admin : User.t) (s : Session) :
  filter (has_id (ADMIN_USER_ID cfg)) (db s) = [admin] ->
  forall candidate : string,
    (check_admin cfg candidate s = (Ok tt, s)
       <-> candidate = User.access_token admin)
    /\ (candidate <> User.access_token admin ->
         check_admin cfg candidate s = (Raise admin_token_invalid, s)
         /\ (forall i e t,
               _get_users cfg i e t candidate s = (Raise admin_token_invalid, s))
         /\ (forall rnd e t,
               _create_user cfg rnd e t candidate s
                 = (Raise admin_token_invalid, s)))
    /\ (forall rest : string, rest <> EmptyString ->
         (User.access_token admin = (candidate ++ rest)%string
          \/ User.access_token admin = (rest ++ candidate)%string) ->
         check_admin cfg candidate s = (Raise admin_token_invalid, s)).
Proof.
  intros Hadmin candidate.
  pose proof (check_admin_present cfg admin candidate s Hadmin) as Hc.
  assert (Hne : candidate <> User.access_token admin ->
                check_admin cfg candidate s = (Raise admin_token_invalid, s)).
  { intros Hneq. apply String.eqb_neq in Hneq. now rewrite Hneq in Hc. }
  split; [|split].
  - destruct (String.eqb candidate (User.access_token admin)) eqn:E.
    + apply String.eqb_eq in E. now split.
    + split; [rewrite Hc; discriminate|].
      intros ->. now rewrite String.eqb_refl in E.
  - intros Hneq. specialize (Hne Hneq). split; [exact Hne|]. split.
    + intros i e t. rewrite _get_users_unfold. now rewrite Hne.
    + intros rnd e t. now apply _create_user_denied.
  - intros rest Hrest Hfix. apply Hne. intros Heq. apply Hrest.
    destruct Hfix as [H|H]; rewrite <- Heq in H; symmetry in H.
    + now apply append_self_l in H.
    + now apply append_self_r in H.
Qed.

Lemma check_admin_iff_token_equal_witness :
  check_admin cfg_demo "s3cr3t" store_demo = (Ok tt, store_demo)
  /\ check_admin cfg_demo "s3cr" store_demo = (Raise admin_token_invalid, store_demo)
  /\ check_admin cfg_demo "cr3t" store_demo = (Raise admin_token_invalid, store_demo)
  /\ _get_users cfg_demo None None None "S3CR3T" store_demo
       = (Raise admin_token_invalid, store_demo).
Proof.
  pose proof (check_admin_iff_token_equal cfg_demo admin_demo store_demo eq_refl)
    as H.
  split; [|split; [|split]].
  - apply (proj1 (H "s3cr3t")). reflexivity.
  - apply (proj2 (proj2 (H "s3cr")) "3t"); [discriminate|left; reflexivity].
  - apply (proj2 (proj2 (H "cr3t")) "s3"); [discriminate|right; reflexivity].
  - apply (proj1 (proj2 (H "S3CR3T"))). discriminate.
Defined.

(** C10. Without a row under the configured admin id, the admin lookup
    yields [None] and reading its [access_token] raises AttributeError: all
    four administrative operations fail with it whatever candidate token
    is given, touching nothing; [_create_user] does not catch it.  The
    authorization error itself is raised only when the admin row exists. *)
Theorem admin_operations_need_admin_record cfg (s : Session) :
  (filter (has_id (ADMIN_USER_ID cfg)) (db s) = [] ->
   forall candidate : string,
     check_admin cfg candidate s = (Raise no_admin_record, s)
     /\ (forall i e t, _get_users cfg i e t candidate s = (Raise no_admin_record, s))
     /\ (forall rnd e t,
           _create_user cfg rnd e t candidate s = (Raise no_admin_record, s))
     /\ _export_users cfg candidate s = (Raise no_admin_record, s)
     /\ (forall text,
           _import_users cfg candidate text s = (Raise no_admin_record, s)))
  /\ (forall candidate s',
        check_admin cfg candidate s = (Raise admin_token_invalid, s') ->
        exists admin, filter (has_id (ADMIN_USER_ID cfg)) (db s) = [admin]
                      /\ candidate <> User.access_token admin).
Proof.
  split.
  - intros Habsent candidate.
    pose proof (check_admin_absent cfg candidate s Habsent) as Hc.
    split; [exact Hc|]. split; [|split; [|split]].
    + intros i e t. rewrite _get_users_unfold. now rewrite Hc.
    + intros rnd e t. now apply _create_user_denied.
    + now apply _export_users_denied.
    + intros text. now apply _import_users_denied.
  - intros candidate s' H.
    destruct (filter (has_id (ADMIN_USER_ID cfg)) (db s)) as [|a [|b l]] eqn:E.
    + rewrite (check_admin_absent _ _ _ E) in H. discriminate.
    + exists a. split; [reflexivity|].
      rewrite (check_admin_present _ _ _ _ E) in H.
      destruct (String.eqb candidate (User.access_token a)) eqn:Eq;
        [discriminate|]. now apply String.eqb_neq.
    + unfold check_admin, query_one_or_none, query_all, bind, lift in H.
      rewrite filter_by_id, E in H. discriminate.
Qed.

Lemma admin_operations_need_admin_record_witness :
  _get_users cfg_demo None None None "s3cr3t" (mkSession [] [])
    = (Raise no_admin_record, mkSession [] [])
  /\ _export_users cfg_demo "s3cr3t" (mkSession [] [])
    = (Raise no_admin_record, mkSession [] [])
  /\ exists admin, filter (has_id (ADMIN_USER_ID cfg_demo)) (db store_demo) = [admin]
                   /\ "guess" <> User.access_token admin.
Proof.
  pose proof (proj1 (admin_operations_need_admin_record cfg_demo (mkSession [] []))
                eq_refl "s3cr3t") as H.
  split; [apply (proj1 (proj2 H))|].
  split; [apply (proj1 (proj2 (proj2 (proj2 H))))|].
  apply (proj2 (admin_operations_need_admin_record cfg_demo store_demo)
           "guess" store_demo).
  reflexivity.
Defined.

(** ** Flushing *)

Lemma flush_Some table new table' :
  flush table new = Some table' -> table' = table ++ new.
Proof.
  revert table. induction new as [|u new IH]; intros table; simpl.
  - intros [= <-]. now rewrite app_nil_r.
  - destruct (existsb (clash u) table); [discriminate|].
    intros H. apply IH in H. now rewrite <- app_assoc in H.
Qed.

Lemma flush_violates table new :
  violates table new -> flush table new = None.
Proof.
  intros (before & u & after & -> & Hclash). revert table Hclash.
  induction before as [|a before IH]; intros table Hclash; simpl.
  - rewrite app_nil_r in Hclash. now rewrite Hclash.
  - destruct (existsb (clash a) table); [reflexivity|].
    apply IH. now rewrite <- app_assoc.
Qed.

Lemma clash_sym u v : clash u v = clash v u.
Proof.
  unfold clash.
  now rewrite (String.eqb_sym (User.id_ u)), (String.eqb_sym (User.email u)),
    (String.eqb_sym (User.access_token u)).
Qed.

Lemma existsb_clash_snoc u v table :
  existsb (clash u) (table ++ [v]) = existsb (clash u) table || clash u v.
Proof. rewrite existsb_app. simpl. now rewrite orb_false_r. Qed.

Lemma unique_rows_snoc table u :
  unique_rows (table ++ [u]) =
    unique_rows table && negb (existsb (clash u) table).
Proof.
  induction table as [|a table IH]; simpl.
  - reflexivity.
  - rewrite IH, existsb_clash_snoc, (clash_sym u a).
    destruct (existsb (clash a) table), (clash a u), (unique_rows table),
      (existsb (clash u) table); reflexivity.
Qed.

(** A flush succeeds exactly when the table stays free of clashes. *)
Lemma flush_unique table new :
  unique_rows table = true ->
  flush table new = if unique_rows (table ++ new) then Some (table ++ new) else None.
Proof.
  revert table. induction new as [|u new IH]; intros table Hu; simpl.
  - now rewrite app_nil_r, Hu.
  - replace (table ++ u :: new) with ((table ++ [u]) ++ new)
      by now rewrite <- app_assoc.
    destruct (existsb (clash u) table) eqn:E.
    + assert (Hn : unique_rows (table ++ [u]) = false)
        by (rewrite unique_rows_snoc, E; apply andb_false_r).
      clear IH. revert Hn. generalize (table ++ [u]). intros l Hl.
      assert (H : unique_rows (l ++ new) = false).
      { induction l as [|a l IHl]; [discriminate|]. simpl in *.
        rewrite existsb_app.
        destruct (existsb (clash a) l); [reflexivity|].
        simpl in Hl. rewrite (IHl Hl). apply andb_false_r. }
      now rewrite H.
    + apply IH. now rewrite unique_rows_snoc, Hu, E.
Qed.

(** ** Importing users *)

Lemma User_of_row_verbatim row u : User_of_row row = Ok u -> verbatim row u.
Proof.
  unfold User_of_row, row_get, verbatim.
  destruct (nth_error row 0), (nth_error row 1), (nth_error row 2);
    try discriminate.
  now intros [= <-].
Qed.

Lemma collect_verbatim rows users :
  collect rows = Ok users -> Forall2 verbatim rows users.
Proof.
  revert users. induction rows as [|row rows IH]; intros users; simpl.
  - intros [= <-]. constructor.
  - destruct (User_of_row row) as [u|e] eqn:E; [|discriminate].
    destruct (collect rows) as [us|e]; [|discriminate].
    intros [= <-]. constructor; [now apply User_of_row_verbatim|now apply IH].
Qed.

Lemma collect_users_of rows users :
  collect rows = Ok users -> users_of rows = users.
Proof.
  revert users. induction rows as [|row rows IH]; intros users; simpl.
  - now intros [= <-].
  - destruct (User_of_row row) as [u|e]; [|discriminate].
    destruct (collect rows) as [us|e]; [|discriminate].
    intros [= <-]. now rewrite (IH us).
Qed.

(** The loop of [_import_users] adds the users of the rows to the session,
    up to the first row that is too short; it never touches the table. *)
Lemma import_loop rows s :
  match collect rows with
  | Ok users =>
      for_each rows add_row s = (Ok tt, mkSession (db s) (pending s ++ users))
  | Raise e =>
      exists p, for_each rows add_row s = (Raise e, mkSession (db s) p)
  end.
Proof.
  revert s. induction rows as [|row rows IH]; intros s; simpl.
  - unfold ret. rewrite app_nil_r. now destruct s.
  - destruct (User_of_row row) as [u|e] eqn:E.
    + assert (H : add_row row s = (Ok tt, mkSession (db s) (pending s ++ [u])))
        by (unfold add_row, Session_add; run_M; now rewrite E).
      rewrite (bind_Ok _ _ _ _ _ H).
      specialize (IH (mkSession (db s) (pending s ++ [u]))). simpl in IH.
      destruct (collect rows) as [us|e].
      * rewrite IH. now rewrite <- app_assoc.
      * destruct IH as [p ->]. now exists p.
    + assert (H : add_row row s = (Raise e, s))
        by (unfold add_row; run_M; now rewrite E).
      rewrite (bind_Raise _ _ _ _ _ H). exists (pending s). now destruct s.
Qed.

(** What [_import_users] does once the admin check has passed. *)
Lemma import_outcome cfg token text s :
  check_admin cfg token s = (Ok tt, s) ->
  match collect (fst (csv.reader text)), snd (csv.reader text) with
  | Raise e, _ =>
      exists p, _import_users cfg token text s = (Raise e, mkSession (db s) p)
  | Ok users, Some e =>
      _import_users cfg token text s
        = (Raise e, mkSession (db s) (pending s ++ users))
  | Ok users, None =>
      _import_users cfg token text s =
        match flush (db s) (pending s ++ users) with
        | Some table => (Ok tt, mkSession table [])
        | None => (Raise IntegrityError, mkSession (db s) [])
        end
  end.
Proof.
  intros Hadmin. unfold _import_users. rewrite (bind_Ok _ _ _ _ _ Hadmin).
  cbv zeta. pose proof (import_loop (fst (csv.reader text)) s) as Hloop.
  destruct (collect (fst (csv.reader text))) as [users|e].
  - rewrite (bind_Ok _ _ _ _ _ Hloop).
    destruct (snd (csv.reader text)) as [e|].
    + reflexivity.
    + unfold Session_commit, Session_remove. run_M. simpl.
      now destruct (flush (db s) (pending s ++ users)).
  - destruct Hloop as [p Hloop]. exists p.
    now rewrite (bind_Raise _ _ _ _ _ Hloop).
Qed.

Lemma import_failure_keeps_table cfg token text s e s' :
  _import_users cfg token text s = (Raise e, s') -> db s' = db s.
Proof.
  intros H. destruct (check_admin_cases cfg token s) as [Hc|[x Hc]].
  - pose proof (import_outcome cfg token text s Hc) as Ho.
    destruct (collect (fst (csv.reader text))) as [users|x].
    + destruct (snd (csv.reader text)) as [x|].
      * rewrite Ho in H. now injection H as _ <-.
      * rewrite Ho in H.
        destruct (flush (db s) (pending s ++ users)); [discriminate|].
        now injection H as _ <-.
    + destruct Ho as [p Ho]. rewrite Ho in H. now injection H as _ <-.
  - rewrite (_import_users_denied _ _ _ _ _ Hc) in H. now injection H as _ <-.
Qed.

Lemma unique_rows_app_l table new :
  unique_rows (table ++ new) = true -> unique_rows table = true.
Proof.
  induction table as [|a table IH]; [reflexivity|]. simpl.
  rewrite existsb_app. intros H. apply andb_true_iff in H. destruct H as [Ha Ht].
  apply andb_true_iff. split; [|now apply IH].
  destruct (existsb (clash a) table); [discriminate Ha|reflexivity].
Qed.

(** The session after the loop of [_import_users], however it ends: the
    table as before, and the users of the rows before the first short row
    added to the session. *)
Lemma import_loop_session rows s r s' :
  for_each rows add_row s = (r, s') ->
  exists k, s' = mkSession (db s) (pending s ++ firstn k (users_of rows)).
Proof.
  revert s. induction rows as [|row rows IH]; intros s; simpl.
  - unfold ret. intros [= _ <-]. exists 0. simpl. rewrite app_nil_r.
    now destruct s.
  - destruct (User_of_row row) as [u|e] eqn:E.
    + assert (H : add_row row s = (Ok tt, mkSession (db s) (pending s ++ [u])))
        by (unfold add_row, Session_add; run_M; now rewrite E).
      rewrite (bind_Ok _ _ _ _ _ H). intros Hl.
      destruct (IH _ Hl) as [k ->]. exists (S k). simpl.
      now rewrite <- app_assoc.
    + assert (H : add_row row s = (Raise e, s))
        by (unfold add_row; run_M; now rewrite E).
      rewrite (bind_Raise _ _ _ _ _ H). intros [= _ <-]. exists 0. simpl.
      rewrite app_nil_r. now destruct s.
Qed.

(** The session after an import that failed: emptied by the failed commit,
    or left by the loop. *)
Lemma import_failure_session cfg token text s e s' :
  _import_users cfg token text s = (Raise e, s') ->
  s' = mkSession (db s) []
  \/ exists k,
       s' = mkSession (db s)
              (pending s ++ firstn k (users_of (fst (csv.reader text)))).
Proof.
  intros H. destruct (check_admin_cases cfg token s) as [Hc|[x Hc]].
  - unfold _import_users in H. rewrite (bind_Ok _ _ _ _ _ Hc) in H.
    cbv zeta in H.
    destruct (for_each (fst (csv.reader text)) add_row s) as [[[]|x] s1] eqn:El;
      destruct (import_loop_session _ _ _ _ El) as [k Hk].
    + rewrite (bind_Ok _ _ _ _ _ El) in H.
      destruct (snd (csv.reader text)) as [x|].
      * unfold bind, raise in H. injection H as _ <-. right. now exists k.
      * unfold bind, ret, Session_commit, Session_remove in H.
        destruct (flush (db s1) (pending s1)); [discriminate|].
        injection H as _ <-. left. now rewrite Hk.
    + rewrite (bind_Raise _ _ _ _ _ El) in H. injection H as _ <-.
      right. now exists k.
  - rewrite (_import_users_denied _ _ _ _ _ Hc) in H. injection H as _ <-.
    right. exists 0. simpl. rewrite app_nil_r. now destruct s.
Qed.

(** C3. [_import_users] is all or nothing on the table.
    - When the rows hold a user that clashes with a row of the table (or
      with a user added to the session before, or with an earlier row),
      the import raises and the table is as it was before.
    - When all rows were read and such a clash is what stops the import,
      it is the commit that raises IntegrityError, and the session is left
      empty: nothing of the import remains.
    - Any failure at all leaves the table unchanged; the session is then
      either emptied by the failed commit, or holds the users of the rows
      read before the import stopped (it is not rolled back).
    - When the admin token is right, every row has its three columns and
      the table with the new users has no clash, the import succeeds: the
      table has grown by exactly one user per row, whose id, email and
      access token are the first three columns of the row as they stand.
    - Every import that succeeds is of that form: no token is generated. *)
Theorem import_users_all_or_nothing cfg (token text : string) (s : Session) :
  let rows := fst (csv.reader text) in
  (violates (db s ++ pending s) (users_of rows) ->
   exists e s',
     _import_users cfg token text s = (Raise e, s')
     /\ db s' = db s
     /\ (pending s' = []
         \/ exists k, pending s' = pending s ++ firstn k (users_of rows)))
  /\ (forall users,
        check_admin cfg token s = (Ok tt, s) ->
        collect rows = Ok users ->
        snd (csv.reader text) = None ->
        violates (db s ++ pending s) users ->
        _import_users cfg token text s
          = (Raise IntegrityError, mkSession (db s) []))
  /\ (forall e s',
        _import_users cfg token text s = (Raise e, s') ->
        db s' = db s
        /\ (pending s' = []
            \/ exists k, pending s' = pending s ++ firstn k (users_of rows)))
  /\ (forall users,
        check_admin cfg token s = (Ok tt, s) ->
        collect rows = Ok users ->
        snd (csv.reader text) = None ->
        unique_rows (db s ++ pending s ++ users) = true ->
        _import_users cfg token text s
          = (Ok tt, mkSession (db s ++ pending s ++ users) [])
        /\ Forall2 verbatim rows users)
  /\ (forall s',
        _import_users cfg token text s = (Ok tt, s') ->
        exists users,
          Forall2 verbatim rows users
          /\ db s' = db s ++ pending s ++ users
          /\ pending s' = []).
Proof.
  intros rows.
  assert (Hfail : forall e s',
            _import_users cfg token text s = (Raise e, s') ->
            db s' = db s
            /\ (pending s' = []
                \/ exists k, pending s' = pending s ++ firstn k (users_of rows))).
  { intros e s' H. split; [now apply (import_failure_keeps_table _ _ _ _ _ _ H)|].
    destruct (import_failure_session _ _ _ _ _ _ H) as [->|[k ->]];
      [now left|right; now exists k]. }
  assert (Hclash : forall users,
            check_admin cfg token s = (Ok tt, s) ->
            collect rows = Ok users ->
            snd (csv.reader text) = None ->
            violates (db s ++ pending s) users ->
            _import_users cfg token text s
              = (Raise IntegrityError, mkSession (db s) [])).
  { intros users Hc Ec En Hv.
    pose proof (import_outcome cfg token text s Hc) as Ho. fold rows in Ho.
    rewrite Ec, En in Ho. rewrite Ho.
    assert (Hf : flush (db s) (pending s ++ users) = None).
    { apply flush_violates.
      destruct Hv as (before & u & after & -> & Hv).
      exists (pending s ++ before), u, after. split.
      - now rewrite <- app_assoc.
      - now rewrite app_assoc. }
    now rewrite Hf. }
  split; [|split; [exact Hclash|split; [exact Hfail|split]]].
  - intros Hv.
    destruct (_import_users cfg token text s) as [[[]|e] s'] eqn:E.
    + exfalso.
      destruct (check_admin_cases cfg token s) as [Hc|[x Hc]].
      * pose proof (import_outcome cfg token text s Hc) as Ho. fold rows in Ho.
        destruct (collect rows) as [users|x] eqn:Ec.
        -- rewrite (collect_users_of _ _ Ec) in Hv.
           destruct (snd (csv.reader text)) as [x|] eqn:En;
             [rewrite Ho in E; discriminate|].
           discriminate (Hclash users Hc eq_refl eq_refl Hv).
        -- destruct Ho as [p Ho]. rewrite Ho in E. discriminate.
      * rewrite (_import_users_denied _ _ _ _ _ Hc) in E. discriminate.
    + exists e, s'. split; [reflexivity|]. exact (Hfail e s' eq_refl).
  - intros users Hc Ec En Hu.
    pose proof (import_outcome cfg token text s Hc) as Ho. fold rows in Ho.
    rewrite Ec, En in Ho. rewrite Ho.
    rewrite (flush_unique _ _ (unique_rows_app_l _ _ Hu)), Hu.
    split; [reflexivity|now apply collect_verbatim].
  - intros s' H.
    destruct (check_admin_cases cfg token s) as [Hc|[x Hc]].
    + pose proof (import_outcome cfg token text s Hc) as Ho. fold rows in Ho.
      destruct (collect rows) as [users|x] eqn:Ec.
      * destruct (snd (csv.reader text)) as [x|];
          [rewrite Ho in H; discriminate|].
        rewrite Ho in H.
        destruct (flush (db s) (pending s ++ users)) as [table|] eqn:Ef;
          [|discriminate].
        injection H as <-. exists users. split; [now apply collect_verbatim|].
        split; [|reflexivity]. simpl. now apply flush_Some in Ef.
      * destruct Ho as [p Ho]. rewrite Ho in H. discriminate.
    + rewrite (_import_users_denied _ _ _ _ _ Hc) in H. discriminate.
Qed.

Lemma import_users_all_or_nothing_witness :
  _import_users cfg_demo "s3cr3t" csv_colliding store_demo
    = (Raise IntegrityError, mkSession (db store_demo) [])
  /\ _import_users cfg_demo "s3cr3t" csv_disjoint store_demo
     = (Ok tt,
        mkSession (db store_demo ++ pending store_demo
                   ++ [User.mk "9f1e" "ann@cern.ch" "tok-ann";
                       User.mk "52c0" "bob@cern.ch" "tok-bob"]) [])
  /\ Forall2 verbatim (fst (csv.reader csv_disjoint))
       [User.mk "9f1e" "ann@cern.ch" "tok-ann";
        User.mk "52c0" "bob@cern.ch" "tok-bob"].
Proof.
  split.
  - apply (proj1 (proj2 (import_users_all_or_nothing cfg_demo "s3cr3t"
                           csv_colliding store_demo))
             [User.mk "9f1e" "ann@cern.ch" "tok-ann";
              User.mk "7d3a" "bob@cern.ch" "tok-bob"]).
    + reflexivity.
    + reflexivity.
    + reflexivity.
    + exists [User.mk "9f1e" "ann@cern.ch" "tok-ann"],
        (User.mk "7d3a" "bob@cern.ch" "tok-bob"), [].
      split; reflexivity.
  - apply (proj1 (proj2 (proj2 (proj2 (import_users_all_or_nothing cfg_demo
                                         "s3cr3t" csv_disjoint store_demo))))
             [User.mk "9f1e" "ann@cern.ch" "tok-ann";
              User.mk "52c0" "bob@cern.ch" "tok-bob"]); reflexivity.
Defined.

(** ** Provisioning a user from an identity event *)

Lemma provision_run rnd account_info email s :
  account_email account_info = Some email ->
  _create_and_associate_reana_user rnd account_info s =
    match filter (has_email email) (db s) with
    | user :: _ => (Ok user, s)
    | [] =>
        let user := User.mk (generate_uuid rnd) email (token_urlsafe rnd) in
        match flush (db s) (pending s ++ [user]) with
        | Some table => (Ok user, mkSession table [])
        | None =>
            (Raise (ValueError "Could not create user, possible constraint violation"),
             mkSession (db s) [])
        end
    end.
Proof.
  intros H. unfold account_email in H.
  destruct account_info as [info|]; [|discriminate].
  destruct (assoc "user" info) as [user_info|] eqn:E1; [|discriminate].
  unfold _create_and_associate_reana_user, subscript, query_all. run_M.
  rewrite E1, H, filter_by_email.
  destruct (filter (has_email email) (db s)) as [|user users]; [|reflexivity].
  unfold Session_add, Session_commit, ret. simpl.
  now destruct (flush (db s) (pending s ++ _)).
Qed.

Lemma unique_rows_one_email email table u rest :
  unique_rows table = true ->
  filter (has_email email) table = u :: rest -> rest = [].
Proof.
  revert u rest. induction table as [|a table IH]; intros u rest Hu; simpl.
  - discriminate.
  - simpl in Hu. apply andb_true_iff in Hu. destruct Hu as [Ha Hu].
    destruct (has_email email a) eqn:Ea.
    + intros [= <- <-].
      destruct (filter (has_email email) table) as [|b l] eqn:Ef; [reflexivity|].
      exfalso.
      assert (Hb : In b (filter (has_email email) table)) by (rewrite Ef; now left).
      apply filter_In in Hb. destruct Hb as [Hin Hb].
      apply negb_true_iff in Ha.
      assert (Hc : existsb (clash a) table = true).
      { apply existsb_exists. exists b. split; [exact Hin|].
        unfold has_email in *. apply String.eqb_eq in Ea, Hb.
        unfold clash. rewrite Ea, Hb, String.eqb_refl.
        now rewrite orb_true_r. }
      congruence.
    + intros H. now apply (IH u rest).
Qed.

Lemma fresh_no_clash rnd email table :
  fresh rnd table ->
  filter (has_email email) table = [] ->
  existsb (clash (User.mk (generate_uuid rnd) email (token_urlsafe rnd))) table
    = false.
Proof.
  intros Hf He. rewrite filter_nil_iff in He.
  destruct (existsb _ table) eqn:E; [|reflexivity]. exfalso.
  apply existsb_exists in E. destruct E as (v & Hv & Hc).
  destruct (Hf v Hv) as [Hid Htok]. specialize (He v Hv).
  unfold clash, has_email in *. simpl in Hc.
  apply orb_true_iff in Hc. destruct Hc as [Hc|Hc].
  - apply orb_true_iff in Hc. destruct Hc as [Hc|Hc].
    + apply String.eqb_eq in Hc. congruence.
    + rewrite String.eqb_sym in Hc. congruence.
  - apply String.eqb_eq in Hc. congruence.
Qed.

(** C9. [_create_and_associate_reana_user] (the spec's
    [findOrCreateByEmail]) is idempotent.  On a table that satisfies its
    constraints, with nothing pending in the session and a drawn id and
    token that no row uses, the first call returns a user, a second call
    for the same email returns the very same user (so the same id) and
    changes nothing, and the table then holds exactly one row with that
    email. *)
Theorem provisioning_is_idempotent (s : Session) (email : string)
    (rnd1 rnd2 : draws) account_info :
  account_email account_info = Some email ->
  unique_rows (db s) = true ->
  pending s = [] ->
  fresh rnd1 (db s) ->
  exists user s1,
    _create_and_associate_reana_user rnd1 account_info s = (Ok user, s1)
    /\ _create_and_associate_reana_user rnd2 account_info s1 = (Ok user, s1)
    /\ User.email user = email
    /\ filter (has_email email) (db s1) = [user]
    /\ unique_rows (db s1) = true.
Proof.
  intros Hinfo Huniq Hpend Hfresh.
  rewrite (provision_run rnd1 _ _ s Hinfo).
  destruct (filter (has_email email) (db s)) as [|u rest] eqn:Ef.
  - cbv zeta. rewrite Hpend. simpl.
    rewrite (fresh_no_clash _ _ _ Hfresh Ef).
    set (user := User.mk (generate_uuid rnd1) email (token_urlsafe rnd1)).
    assert (Hone : filter (has_email email) (db s ++ [user]) = [user]).
    { rewrite filter_app, Ef. simpl. unfold has_email at 1. simpl.
      now rewrite String.eqb_refl. }
    exists user, (mkSession (db s ++ [user]) []). split; [reflexivity|].
    split; [|split; [reflexivity|split]].
    + rewrite (provision_run rnd2 _ _ _ Hinfo). simpl. now rewrite Hone.
    + exact Hone.
    + simpl. rewrite unique_rows_snoc, Huniq.
      unfold user. now rewrite (fresh_no_clash _ _ _ Hfresh Ef).
  - pose proof (unique_rows_one_email _ _ _ _ Huniq Ef) as ->.
    exists u, s. split; [reflexivity|].
    split; [|split; [|split]].
    + rewrite (provision_run rnd2 _ _ _ Hinfo). now rewrite Ef.
    + assert (Hin : In u (filter (has_email email) (db s)))
        by (rewrite Ef; now left).
      apply filter_In in Hin. now apply String.eqb_eq.
    + exact Ef.
    + exact Huniq.
Qed.

Lemma provisioning_is_idempotent_witness :
  exists user s1,
    _create_and_associate_reana_user draws_demo account_info_demo store_demo
      = (Ok user, s1)
    /\ _create_and_associate_reana_user draws_demo account_info_demo s1
      = (Ok user, s1)
    /\ User.email user = "ann@cern.ch"
    /\ filter (has_email "ann@cern.ch") (db s1) = [user]
    /\ unique_rows (db s1) = true.
Proof.
  apply (provisioning_is_idempotent store_demo "ann@cern.ch" draws_demo draws_demo
           account_info_demo); try reflexivity.
  intros u Hu. simpl in Hu.
  destruct Hu as [<-|[<-|[]]]; simpl; split; discriminate.
Defined.

(** ** The csv writer and reader *)

Lemma append_assoc (x y z : string) :
  ((x ++ y) ++ z)%string = (x ++ (y ++ z))%string.
Proof. induction x as [|c x IH]; simpl; [easy|now rewrite IH]. Qed.

Lemma quoted_append field after rest :
  (csv.quoted field after ++ rest)%string = csv.quoted field (after ++ rest).
Proof. unfold csv.quoted. simpl. now rewrite append_assoc. Qed.

Lemma join_append fields after rest :
  (csv.join fields after ++ rest)%string = csv.join fields (after ++ rest).
Proof.
  induction fields as [|f fields IH]; [reflexivity|].
  cbn [csv.join]. rewrite quoted_append.
  destruct fields as [|g fields]; [reflexivity|].
  change (String csv.delimiter (csv.join (g :: fields) after) ++ rest)%string
    with (String csv.delimiter (csv.join (g :: fields) after ++ rest)).
  now rewrite IH.
Qed.

(** One character that does not end a line. *)
Lemma rows_from_step r ch r1 midline rest :
  csv.parse_process_char r (csv.Chr ch) = Ok r1 ->
  Ascii.eqb ch csv.LF = false ->
  csv.rows_from r midline (String ch rest) = csv.rows_from r1 true rest.
Proof. intros H Hch. cbn [csv.rows_from]. now rewrite H, Hch. Qed.

(** A line feed that does not complete a record. *)
Lemma rows_from_step_LF r r1 r2 midline rest :
  csv.parse_process_char r (csv.Chr csv.LF) = Ok r1 ->
  csv.parse_process_char r1 csv.EOL = Ok r2 ->
  csv.is_START_RECORD (csv.state r2) = false ->
  csv.rows_from r midline (String csv.LF rest) = csv.rows_from r2 false rest.
Proof.
  intros H1 H2 Hst. cbn [csv.rows_from]. rewrite H1.
  change (Ascii.eqb csv.LF csv.LF) with true. cbv iota. now rewrite H2, Hst.
Qed.

Lemma in_quoted_char acc fs c :
  Ascii.eqb c csv.quotechar = false ->
  csv.parse_process_char (csv.mkReader csv.IN_QUOTED_FIELD acc fs) (csv.Chr c)
  = Ok (csv.mkReader csv.IN_QUOTED_FIELD (acc ++ String c EmptyString) fs).
Proof. intros H. unfold csv.parse_process_char. simpl. now rewrite H. Qed.

(** Inside a quoted field the reader takes the characters of the escaped
    field back as they were, line feeds included, up to the closing quote. *)
Lemma rows_from_quoted field acc fs midline rest :
  csv.rows_from (csv.mkReader csv.IN_QUOTED_FIELD acc fs) midline
    (csv.escape field ++ String csv.quotechar rest)
  = csv.rows_from
      (csv.mkReader csv.QUOTE_IN_QUOTED_FIELD (acc ++ field) fs) true rest.
Proof.
  revert acc midline. induction field as [|c field IH]; intros acc midline.
  - rewrite append_nil_r. now apply rows_from_step.
  - replace (acc ++ String c field)%string
      with ((acc ++ String c EmptyString) ++ field)%string
      by now rewrite append_assoc.
    cbn [csv.escape]. destruct (Ascii.eqb c csv.quotechar) eqn:Eq.
    + apply Ascii.eqb_eq in Eq. subst c.
      change (String csv.quotechar (String csv.quotechar (csv.escape field))
              ++ String csv.quotechar rest)%string
        with (String csv.quotechar (String csv.quotechar
                (csv.escape field ++ String csv.quotechar rest))).
      rewrite (rows_from_step _ csv.quotechar
                 (csv.mkReader csv.QUOTE_IN_QUOTED_FIELD acc fs));
        [|reflexivity|reflexivity].
      rewrite (rows_from_step _ csv.quotechar
                 (csv.mkReader csv.IN_QUOTED_FIELD
                    (acc ++ String csv.quotechar EmptyString) fs));
        [|reflexivity|reflexivity].
      apply IH.
    + change (String c (csv.escape field) ++ String csv.quotechar rest)%string
        with (String c (csv.escape field ++ String csv.quotechar rest)).
      destruct (Ascii.eqb c csv.LF) eqn:El.
      * apply Ascii.eqb_eq in El. subst c.
        rewrite (rows_from_step_LF _ _ _ _ _ (in_quoted_char acc fs _ Eq)
                   eq_refl eq_refl).
        apply IH.
      * rewrite (rows_from_step _ _ _ _ _ (in_quoted_char acc fs _ Eq) El).
        apply IH.
Qed.

(** A field written by the writer, read from the start of a field. *)
Lemma rows_from_field st field fs midline rest :
  st = csv.START_FIELD \/ (st = csv.START_RECORD) ->
  csv.rows_from (csv.mkReader st EmptyString fs) midline (csv.quoted field rest)
  = csv.rows_from (csv.mkReader csv.QUOTE_IN_QUOTED_FIELD field fs) true rest.
Proof.
  intros Hst. unfold csv.quoted.
  assert (H : csv.parse_process_char (csv.mkReader st EmptyString fs)
                (csv.Chr csv.quotechar)
              = Ok (csv.mkReader csv.IN_QUOTED_FIELD EmptyString fs))
    by (destruct Hst as [-> | ->]; reflexivity).
  cbn [csv.rows_from]. rewrite H.
  change (Ascii.eqb csv.quotechar csv.LF) with false. cbv iota.
  now rewrite rows_from_quoted.
Qed.

Lemma rows_from_join fields st fs midline rest :
  fields <> [] ->
  st = csv.START_FIELD \/ st = csv.START_RECORD ->
  csv.rows_from (csv.mkReader st EmptyString fs) midline
    (csv.join fields (String csv.LF rest))
  = (let (rows, err) := csv.rows_from csv.parse_reset false rest in
     ((fs ++ fields) :: rows, err)).
Proof.
  revert st fs midline. induction fields as [|f fields IH];
    intros st fs midline Hne Hst; [easy|].
  cbn [csv.join]. rewrite (rows_from_field st _ _ _ _ Hst).
  destruct fields as [|g fields].
  - reflexivity.
  - cbn [csv.rows_from csv.parse_process_char csv.state].
    change (Ascii.eqb csv.delimiter csv.quotechar) with false.
    change (Ascii.eqb csv.delimiter csv.delimiter) with true.
    change (Ascii.eqb csv.delimiter csv.LF) with false. cbv iota.
    unfold csv.set_state, csv.parse_save_field. cbn [csv.field csv.fields].
    rewrite (IH csv.START_FIELD); [|discriminate|now left].
    now rewrite <- app_assoc.
Qed.

(** Reading back a row the writer wrote yields the row, and the reader goes
    on with the rest of the text. *)
Lemma reader_writerow fields rest :
  csv.reader (csv.writerow fields ++ rest)
  = (let (rows, err) := csv.reader rest in (fields :: rows, err)).
Proof.
  unfold csv.reader, csv.writerow. rewrite join_append.
  change (String csv.LF EmptyString ++ rest)%string with (String csv.LF rest).
  destruct fields as [|f fields].
  - reflexivity.
  - unfold csv.parse_reset at 1.
    rewrite rows_from_join; [reflexivity|discriminate|now right].
Qed.

(** ** Export, and import of an export *)

Lemma export_buffer users buffer :
  fold_left
    (fun csv_file_obj user =>
       (csv_file_obj ++
        csv.writerow [User.id_ user; User.email user; User.access_token user])%string)
    users buffer
  = (buffer ++ csv_of users)%string.
Proof.
  revert buffer. induction users as [|u users IH]; intros buffer; simpl.
  - now rewrite append_nil_r.
  - rewrite IH. unfold row_of_user. now rewrite append_assoc.
Qed.

Lemma export_granted cfg token s :
  check_admin cfg token s = (Ok tt, s) ->
  _export_users cfg token s = (Ok (csv_of (db s)), s).
Proof.
  intros H. unfold _export_users. rewrite (bind_Ok _ _ _ _ _ H).
  unfold query_all. run_M. now rewrite filter_all, export_buffer.
Qed.

Lemma reader_csv_of users :
  csv.reader (csv_of users) = (map row_of_user users, None).
Proof.
  induction users as [|u users IH]; [reflexivity|].
  cbn [csv_of map]. now rewrite reader_writerow, IH.
Qed.

Lemma collect_rows_of_users users :
  collect (map row_of_user users) = Ok users.
Proof.
  induction users as [|u users IH]; [reflexivity|].
  cbn [map collect]. rewrite IH. now destruct u.
Qed.

Lemma admin_alone cfg admin :
  User.id_ admin = ADMIN_USER_ID cfg ->
  filter (has_id (ADMIN_USER_ID cfg)) [admin] = [admin].
Proof. intros H. simpl. unfold has_id. now rewrite H, String.eqb_refl. Qed.

(** C7, as the code has it.  An export under one configuration holds one
    written row [(id, email, access_token)] per user, in the order of the
    table, with no header; the reader gives these rows back; and the import
    of the export into a store that holds just the admin row of the
    importing configuration, a row that clashes with no exported one, ends
    with that admin row followed by exactly the exported users. *)
Theorem export_then_import_restores (cfgA cfgB : config) (s : Session)
    (adminA adminB : User.t) :
  filter (has_id (ADMIN_USER_ID cfgA)) (db s) = [adminA] ->
  User.id_ adminB = ADMIN_USER_ID cfgB ->
  unique_rows (adminB :: db s) = true ->
  _export_users cfgA (User.access_token adminA) s = (Ok (csv_of (db s)), s)
  /\ csv.reader (csv_of (db s)) = (map row_of_user (db s), None)
  /\ _import_users cfgB (User.access_token adminB) (csv_of (db s))
       (mkSession [adminB] [])
     = (Ok tt, mkSession (adminB :: db s) []).
Proof.
  intros HadminA HadminB Huniq. split; [|split].
  - apply export_granted. rewrite (check_admin_present _ _ _ _ HadminA).
    now rewrite String.eqb_refl.
  - apply reader_csv_of.
  - assert (Hc : check_admin cfgB (User.access_token adminB) (mkSession [adminB] [])
                 = (Ok tt, mkSession [adminB] [])).
    { rewrite (check_admin_present cfgB adminB); [|now apply admin_alone].
      now rewrite String.eqb_refl. }
    pose proof (import_outcome cfgB _ (csv_of (db s)) _ Hc) as Ho.
    rewrite reader_csv_of in Ho. cbn [fst snd] in Ho.
    rewrite collect_rows_of_users in Ho. rewrite Ho. cbn [db pending app].
    rewrite (flush_unique [adminB] (db s)); [|reflexivity].
    change ([adminB] ++ db s) with (adminB :: db s). now rewrite Huniq.
Qed.

Lemma export_then_import_restores_witness :
  _export_users cfg_demo "s3cr3t" store_demo = (Ok (csv_of (db store_demo)), store_demo)
  /\ csv.reader (csv_of (db store_demo)) = (map row_of_user (db store_demo), None)
  /\ _import_users cfg_other "r00t" (csv_of (db store_demo))
       (mkSession [admin_other] [])
     = (Ok tt, mkSession (admin_other :: db store_demo) []).
Proof.
  apply (export_then_import_restores cfg_demo cfg_other store_demo admin_demo
           admin_other); reflexivity.
Defined.

(** Under one and the same configuration an export cannot be imported at
    all: a store that passes the admin check holds a row under the admin id,
    and so does the export. *)
Lemma reimport_under_same_configuration_fails cfg (s t : Session)
    (adminA : User.t) (token : string) :
  filter (has_id (ADMIN_USER_ID cfg)) (db s) = [adminA] ->
  check_admin cfg token t = (Ok tt, t) ->
  _import_users cfg token (csv_of (db s)) t
    = (Raise IntegrityError, mkSession (db t) []).
Proof.
  intros HadminA Hc.
  pose proof (import_outcome cfg token (csv_of (db s)) t Hc) as Ho.
  rewrite reader_csv_of in Ho. cbn [fst snd] in Ho.
  rewrite collect_rows_of_users in Ho. rewrite Ho.
  assert (HinA : In adminA (filter (has_id (ADMIN_USER_ID cfg)) (db s)))
    by (rewrite HadminA; now left).
  apply filter_In in HinA. destruct HinA as [HinA HidA].
  destruct (filter (has_id (ADMIN_USER_ID cfg)) (db t)) as [|adminT rest] eqn:Et.
  - rewrite (check_admin_absent _ _ _ Et) in Hc. discriminate.
  - assert (HinT : In adminT (filter (has_id (ADMIN_USER_ID cfg)) (db t)))
      by (rewrite Et; now left).
    apply filter_In in HinT. destruct HinT as [HinT HidT].
    destruct (in_split _ _ HinA) as (before & after & Hsplit).
    rewrite flush_violates; [reflexivity|].
    exists (pending t ++ before), adminA, after. split.
    + now rewrite Hsplit, <- app_assoc.
    + rewrite existsb_app. apply orb_true_iff. left.
      apply existsb_exists. exists adminT. split; [exact HinT|].
      unfold has_id in *. apply String.eqb_eq in HidA, HidT.
      unfold clash. now rewrite HidA, HidT, String.eqb_refl.
Qed.

(** The round trip into an empty store fails: the empty store has no admin
    row, so the import raises AttributeError and imports nothing. *)
Lemma roundtrip_into_empty_store_fails :
  _export_users cfg_demo "s3cr3t" store_demo
    = (Ok (csv_of (db store_demo)), store_demo)
  /\ _import_users cfg_demo "s3cr3t" (csv_of (db store_demo)) (mkSession [] [])
    = (Raise no_admin_record, mkSession [] [])
  /\ db (mkSession [] []) <> db store_demo.
Proof. split; [reflexivity|]. split; [reflexivity|discriminate]. Qed.

(** ** Creating an analysis *)

Section CreateAnalysis.

Variable cfg : config.
Variable env : collaborators.

(** C1, as the code has it.  When [workflow_engine] is not among the
    configured engines, [create_analysis] raises
    [Exception('Unknown workflow engine')] before it reads the upload or
    calls anything: the log of remote calls is unchanged.  The exception is
    no KeyError, so the clause for status 400 does not take it: the clause
    for every other exception answers with the message and status 500.
    Status 400 is the answer only when the engine was accepted and a
    KeyError was raised after that: by the missing upload, by a missing
    field of the yadage document, or by the decoding, the parsing or the
    dispatch call; the body is the message of that KeyError. *)
Theorem unknown_engine_answers_500 (r : request) (log : list call) :
  (contains (AVAILABLE_WORKFLOW_ENGINES cfg) (assoc "workflow_engine" (args r))
     = false ->
   create_analysis cfg env r log
     = (Ok {| body := message unknown_engine; status := 500 |}, log))
  /\ (forall (response : http_response) (log' : list call),
        create_analysis cfg env r log = (Ok response, log') ->
        status response = 400%Z ->
        contains (AVAILABLE_WORKFLOW_ENGINES cfg)
          (assoc "workflow_engine" (args r)) = true
        /\ exists e,
             is_KeyError e = true
             /\ body response = message e
             /\ raised_in env r e).
Proof.
  assert (Hunknown :
            contains (AVAILABLE_WORKFLOW_ENGINES cfg)
              (assoc "workflow_engine" (args r)) = false ->
            create_analysis cfg env r log
              = (Ok {| body := message unknown_engine; status := 500 |}, log)).
  { intros H. unfold create_analysis. run_M. now rewrite H. }
  split; [exact Hunknown|].
  intros response log'.
  destruct (contains (AVAILABLE_WORKFLOW_ENGINES cfg)
              (assoc "workflow_engine" (args r))) eqn:Hin;
    [|rewrite (Hunknown eq_refl); intros [= <- _] Hs; discriminate Hs].
  intros H Hs. split; [reflexivity|]. revert H.
  unfold create_analysis. run_M. unfold ret, raise. rewrite Hin. simpl.
  destruct (files_getitem r "analysis_payload") as [bytes|e] eqn:Ef; simpl.
  2: { destruct (is_KeyError e) eqn:Ek; intros [= <- _]; [|discriminate Hs].
       exists e. split; [exact Ek|]. split; [reflexivity|].
       now apply raised_by_upload. }
  destruct (decode_UTF8 env bytes) as [text|e] eqn:Ed; simpl.
  2: { destruct (is_KeyError e) eqn:Ek; intros [= <- _]; [|discriminate Hs].
       exists e. split; [exact Ek|]. split; [reflexivity|].
       now apply (raised_by_decoding env r e bytes). }
  destruct (json_loads env text) as [document|e] eqn:Ej; simpl.
  2: { destruct (is_KeyError e) eqn:Ek; intros [= <- _]; [|discriminate Hs].
       exists e. split; [exact Ek|]. split; [reflexivity|].
       now apply (raised_by_parsing env r e bytes text). }
  destruct (is_engine (assoc "workflow_engine" (args r)) "yadage") eqn:Ey; simpl;
    [|intros [= <- _]; discriminate Hs].
  destruct (getitem document "toplevel") as [toplevel|e] eqn:E1; simpl.
  2: { destruct (is_KeyError e) eqn:Ek; intros [= <- _]; [|discriminate Hs].
       exists e. split; [exact Ek|]. split; [reflexivity|].
       apply (raised_by_field env r e bytes text document "toplevel");
         auto; simpl; auto. }
  destruct (getitem document "workflow") as [workflow|e] eqn:E2; simpl.
  2: { destruct (is_KeyError e) eqn:Ek; intros [= <- _]; [|discriminate Hs].
       exists e. split; [exact Ek|]. split; [reflexivity|].
       apply (raised_by_field env r e bytes text document "workflow");
         auto; simpl; auto. }
  destruct (getitem document "nparallel") as [nparallel|e] eqn:E3; simpl.
  2: { destruct (is_KeyError e) eqn:Ek; intros [= <- _]; [|discriminate Hs].
       exists e. split; [exact Ek|]. split; [reflexivity|].
       apply (raised_by_field env r e bytes text document "nparallel");
         auto; simpl; auto. }
  destruct (getitem document "preset_pars") as [preset_pars|e] eqn:E4; simpl.
  2: { destruct (is_KeyError e) eqn:Ek; intros [= <- _]; [|discriminate Hs].
       exists e. split; [exact Ek|]. split; [reflexivity|].
       apply (raised_by_field env r e bytes text document "preset_pars");
         auto; simpl; auto 6. }
  destruct (create_yadage_workflow env _ _ _) as [res|e] eqn:Ec; simpl;
    [intros [= <- _]; discriminate Hs|].
  destruct (is_KeyError e) eqn:Ek; intros [= <- _]; [|discriminate Hs].
  exists e. split; [exact Ek|]. split; [reflexivity|].
  now apply (raised_by_dispatch env r e bytes text document
               toplevel workflow nparallel preset_pars).
Qed.

(** Status 400 is the answer to a KeyError only: here the document of a
    yadage upload lacks a field.  Nothing was called either. *)
Lemma missing_field_answers_400 (r : request) (log : list call)
    (bytes text : string) (document : value) :
  assoc "workflow_engine" (args r) = Some "yadage" ->
  contains (AVAILABLE_WORKFLOW_ENGINES cfg) (Some "yadage") = true ->
  assoc "analysis_payload" (files r) = Some bytes ->
  decode_UTF8 env bytes = Ok text ->
  json_loads env text = Ok document ->
  getitem document "toplevel" = Raise (KeyError "toplevel") ->
  create_analysis cfg env r log
    = (Ok {| body := message (KeyError "toplevel"); status := 400 |}, log).
Proof.
  intros He Hin Hf Hd Hj H1.
  unfold create_analysis, files_getitem. run_M.
  rewrite He, Hin, Hf. simpl. now rewrite Hd, Hj, H1.
Qed.

(** C6. An upload for the engine yadage whose document has the four
    fields: [create_analysis] makes one remote call,
    [create_yadage_workflow], with [yadage_payload] holding exactly the
    four fields of the document, and when that call returns, its result is
    the body of the response, with status 200. *)
Theorem yadage_upload_is_dispatched (r : request) (log : list call)
    (bytes text : string)
    (document toplevel workflow nparallel preset_pars res : value) :
  assoc "workflow_engine" (args r) = Some "yadage" ->
  contains (AVAILABLE_WORKFLOW_ENGINES cfg) (Some "yadage") = true ->
  assoc "analysis_payload" (files r) = Some bytes ->
  decode_UTF8 env bytes = Ok text ->
  json_loads env text = Ok document ->
  getitem document "toplevel" = Ok toplevel ->
  getitem document "workflow" = Ok workflow ->
  getitem document "nparallel" = Ok nparallel ->
  getitem document "preset_pars" = Ok preset_pars ->
  create_yadage_workflow env
    (yadage_payload_of toplevel workflow nparallel preset_pars)
    (assoc "organization" (args r)) (assoc "user" (args r)) = Ok res ->
  create_analysis cfg env r log
    = (Ok {| body := res; status := 200 |},
       log ++ [Call_create_yadage_workflow
                 (yadage_payload_of toplevel workflow nparallel preset_pars)
                 (assoc "organization" (args r)) (assoc "user" (args r))]).
Proof.
  intros He Hin Hf Hd Hj H1 H2 H3 H4 Hres.
  unfold create_analysis, files_getitem. run_M.
  rewrite He, Hin, Hf. simpl. rewrite Hd, Hj, H1, H2, H3, H4.
  unfold yadage_payload_of in Hres. now rewrite Hres.
Qed.

End CreateAnalysis.

Lemma unknown_engine_answers_500_witness :
  create_analysis cfg_demo env_demo request_unknown_engine []
    = (Ok {| body := VDict [("message", VStr "Unknown workflow engine")];
             status := 500 |}, [])
  /\ (contains (AVAILABLE_WORKFLOW_ENGINES cfg_demo)
        (assoc "workflow_engine" (args request_without_upload)) = true
      /\ exists e,
           is_KeyError e = true
           /\ body {| body := message (BadRequestKeyError "analysis_payload");
                      status := 400 |} = message e
           /\ raised_in env_demo request_without_upload e).
Proof.
  split.
  - apply (proj1 (unknown_engine_answers_500 cfg_demo env_demo
                    request_unknown_engine [])).
    reflexivity.
  - apply (proj2 (unknown_engine_answers_500 cfg_demo env_demo
                    request_without_upload [])
             {| body := message (BadRequestKeyError "analysis_payload");
                status := 400 |} []); reflexivity.
Defined.

(** The request for an engine that is not configured is not answered with
    status 400. *)
Lemma unknown_engine_is_not_answered_400 :
  contains (AVAILABLE_WORKFLOW_ENGINES cfg_demo)
    (assoc "workflow_engine" (args request_unknown_engine)) = false
  /\ exists response,
       create_analysis cfg_demo env_demo request_unknown_engine []
         = (Ok response, [])
       /\ status response <> 400%Z.
Proof.
  split; [reflexivity|].
  exists {| body := message unknown_engine; status := 500 |}.
  split; [reflexivity|discriminate].
Qed.

Lemma yadage_upload_is_dispatched_witness :
  create_analysis cfg_demo env_demo request_yadage []
    = (Ok {| body := launched; status := 200 |},
       [Call_create_yadage_workflow
          (yadage_payload_of (VStr "workflow.yaml") (VDict [("stages", VList [])])
             (VInt 2) (VDict []))
          (Some "default") (Some "7d3a")]).
Proof.
  apply (yadage_upload_is_dispatched cfg_demo env_demo request_yadage []
           "payload.json" "payload.json" document_demo
           (VStr "workflow.yaml") (VDict [("stages", VList [])]) (VInt 2)
           (VDict []) launched); reflexivity.
Defined.

(** ** Resolving a webhook *)

Section Webhook.

Variable cfg : config.
Variable env : collaborators.
Variable webhook_data : value.
Variable user_id : string.
Variable log : list call.

Lemma webhook_locals_push project branch commit_sha :
  getitem webhook_data "object_kind" = Ok (VStr "push") ->
  getitem webhook_data "project" = Ok project ->
  getitem project "default_branch" = Ok branch ->
  getitem webhook_data "checkout_sha" = Ok commit_sha ->
  webhook_locals webhook_data log = (Ok (Some branch, Some commit_sha), log).
Proof.
  intros Hk Hp Hb Hc. unfold webhook_locals. run_M.
  rewrite Hk. simpl. now rewrite Hp, Hb, Hc.
Qed.

Lemma webhook_locals_merge_request attrs last_commit branch commit_sha :
  getitem webhook_data "object_kind" = Ok (VStr "merge_request") ->
  getitem webhook_data "object_attributes" = Ok attrs ->
  getitem attrs "source_branch" = Ok branch ->
  getitem attrs "last_commit" = Ok last_commit ->
  getitem last_commit "id" = Ok commit_sha ->
  webhook_locals webhook_data log = (Ok (Some branch, Some commit_sha), log).
Proof.
  intros Hk Ha Hb Hl Hc. unfold webhook_locals. run_M.
  rewrite Hk. simpl. now rewrite Ha, Hb, Hl, Hc.
Qed.

Lemma webhook_locals_other kind :
  getitem webhook_data "object_kind" = Ok kind ->
  eq_str kind "push" = false ->
  eq_str kind "merge_request" = false ->
  webhook_locals webhook_data log = (Ok (None, None), log).
Proof.
  intros Hk Hp Hm. unfold webhook_locals. run_M.
  rewrite Hk, Hp. now rewrite Hm.
Qed.

(** C2 (what the code does for other kinds).  When [object_kind] is
    neither push nor merge_request, no branch of the [if]/[elif] runs and
    [branch] and [commit_sha] stay unbound.  The function still reads the
    secret of the user; when that and the project id are there, it raises
    UnboundLocalError for [branch] while building the URL, before any
    fetch.  In no case does it return. *)
Theorem other_event_kind_leaves_branch_unbound (kind : value) :
  getitem webhook_data "object_kind" = Ok kind ->
  eq_str kind "push" = false ->
  eq_str kind "merge_request" = false ->
  (forall gitlab_token project project_id,
     get_secret_value env user_id "gitlab_access_token" = Ok gitlab_token ->
     getitem webhook_data "project" = Ok project ->
     getitem project "id" = Ok project_id ->
     _get_reana_yaml_from_gitlab cfg env webhook_data user_id log
       = (Raise (UnboundLocalError "branch"),
          log ++ [Call_get_secret_value user_id "gitlab_access_token"]))
  /\ (exists e,
        _get_reana_yaml_from_gitlab cfg env webhook_data user_id log
          = (Raise e, log ++ [Call_get_secret_value user_id "gitlab_access_token"])).
Proof.
  intros Hk Hp Hm.
  pose proof (webhook_locals_other kind Hk Hp Hm) as Hl.
  split.
  - intros gitlab_token project project_id Hs Hpr Hid.
    unfold _get_reana_yaml_from_gitlab. cbv zeta.
    rewrite (bind_Ok _ _ _ _ _ Hl). run_M. simpl.
    now rewrite Hs, Hpr, Hid.
  - unfold _get_reana_yaml_from_gitlab. cbv zeta.
    rewrite (bind_Ok _ _ _ _ _ Hl). run_M. simpl.
    destruct (get_secret_value env user_id "gitlab_access_token");
      [|eauto].
    destruct (getitem webhook_data "project") as [project|]; [|eauto].
    destruct (getitem project "id"); eauto.
Qed.

(** C4, as the code has it.  Once the event has given a branch and a
    commit and the secret and the project id are there, the fetch is made:
    an error of the fetch propagates as it is; otherwise the body of the
    response is parsed whatever its status code, and an error of the parser
    propagates as it is.  After a parsed body the path of the project is
    read: when the project has none, the error of that lookup propagates,
    otherwise the parsed body is returned with the path, the branch and the
    commit. *)
Theorem fetch_then_parse (branch commit_sha project project_id : value)
    (gitlab_token : string) :
  webhook_locals webhook_data log = (Ok (Some branch, Some commit_sha), log) ->
  get_secret_value env user_id "gitlab_access_token" = Ok gitlab_token ->
  getitem webhook_data "project" = Ok project ->
  getitem project "id" = Ok project_id ->
  _get_reana_yaml_from_gitlab cfg env webhook_data user_id log =
    (match requests_get env
             (gitlab_api_format cfg project_id "reana.yaml" branch gitlab_token)
     with
     | Raise e => Raise e
     | Ok yaml_file =>
         match yaml_load env (content yaml_file) with
         | Raise e => Raise e
         | Ok spec =>
             match getitem project "path_with_namespace" with
             | Raise e => Raise e
             | Ok path => Ok (spec, path, branch, commit_sha)
             end
         end
     end,
     log ++ fetch_calls cfg user_id project_id branch gitlab_token).
Proof.
  intros Hl Hs Hp Hid.
  unfold _get_reana_yaml_from_gitlab. cbv zeta.
  rewrite (bind_Ok _ _ _ _ _ Hl). run_M. unfold fetch_calls. simpl.
  rewrite Hs, Hp, Hid. simpl. rewrite <- app_assoc. simpl.
  destruct (requests_get env _) as [yaml_file|e]; [|reflexivity].
  destruct (yaml_load env (content yaml_file)) as [spec|e]; [|reflexivity].
  now destruct (getitem project "path_with_namespace").
Qed.

End Webhook.

Lemma other_event_kind_leaves_branch_unbound_witness :
  _get_reana_yaml_from_gitlab cfg_demo env_demo tag_push_event "7d3a" []
    = (Raise (UnboundLocalError "branch"),
       [Call_get_secret_value "7d3a" "gitlab_access_token"]).
Proof.
  apply (proj1 (other_event_kind_leaves_branch_unbound cfg_demo env_demo
                  tag_push_event "7d3a" [] (VStr "tag_push")
                  eq_refl eq_refl eq_refl)
           "glpat-jane" project_demo (VInt 42)); reflexivity.
Defined.

Lemma fetch_then_parse_witness :
  _get_reana_yaml_from_gitlab cfg_demo env_demo merge_request_event "7d3a" []
    = (Ok (spec_demo, VStr "jane/analysis", VStr "fix-cuts", VStr "b45e1c0a"),
       fetch_calls cfg_demo "7d3a" (VInt 42) (VStr "fix-cuts") "glpat-jane").
Proof.
  apply (fetch_then_parse cfg_demo env_demo merge_request_event "7d3a" []
           (VStr "fix-cuts") (VStr "b45e1c0a") project_demo (VInt 42)
           "glpat-jane"); reflexivity.
Defined.

(** A fetch that GitLab answers with 404 does not fail: the body is parsed
    and returned as the specification. *)
Lemma not_found_is_returned_as_specification :
  requests_get env_404
    (gitlab_api_format cfg_demo (VInt 42) "reana.yaml" (VStr "master") "glpat-jane")
    = Ok not_found
  /\ status_code not_found = 404%Z
  /\ _get_reana_yaml_from_gitlab cfg_demo env_404 push_event "7d3a" []
     = (Ok (not_found_document, VStr "jane/analysis", VStr "master",
            VStr "da1560886d4f"),
        fetch_calls cfg_demo "7d3a" (VInt 42) (VStr "master") "glpat-jane").
Proof. split; [reflexivity|]. split; reflexivity. Qed.

(* ================================================================== *)
(** * Further properties of the code *)
(* ================================================================== *)

(** ** Listing users *)

Lemma matches_app criteria1 criteria2 u :
  matches (criteria1 ++ criteria2) u = matches criteria1 u && matches criteria2 u.
Proof. unfold matches. apply forallb_app. Qed.

Lemma matches_criterion c v u :
  matches (criterion c v) u = true <-> passes c v u.
Proof.
  unfold passes, criterion. destruct v as [s|]; simpl.
  - destruct (String.eqb s EmptyString) eqn:E; simpl.
    + split; [discriminate|reflexivity].
    + unfold matches. simpl. rewrite andb_true_r, String.eqb_eq. split.
      * now intros -> _.
      * intros H. specialize (H eq_refl). now injection H as ->.
  - split; [discriminate|reflexivity].
Qed.

(** [_get_users] with the admin token returns, in the order of the table,
    exactly the rows that pass the three criteria together; a criterion
    that is [None] or empty is not applied.  The session is not changed. *)
Theorem get_users_selects cfg (admin : User.t) (s : Session)
    (_id email user_access_token : option string) :
  filter (has_id (ADMIN_USER_ID cfg)) (db s) = [admin] ->
  exists users,
    _get_users cfg _id email user_access_token (User.access_token admin) s
      = (Ok users, s)
    /\ (exists keep, users = filter keep (db s))
    /\ forall u, In u users <->
         In u (db s) /\ passes Col_id_ _id u /\ passes Col_email email u
         /\ passes Col_access_token user_access_token u.
Proof.
  intros Hadmin. rewrite _get_users_unfold.
  rewrite (check_admin_present _ _ _ _ Hadmin), String.eqb_refl.
  eexists. split; [reflexivity|]. split; [eexists; reflexivity|].
  intros u. rewrite filter_In, !matches_app, !andb_true_iff.
  now rewrite !matches_criterion.
Qed.

Lemma get_users_selects_witness :
  exists users,
    _get_users cfg_demo None (Some "jane@cern.ch") (Some EmptyString) "s3cr3t"
      store_demo = (Ok users, store_demo)
    /\ (exists keep, users = filter keep (db store_demo))
    /\ forall u, In u users <->
         In u (db store_demo) /\ passes Col_id_ None u
         /\ passes Col_email (Some "jane@cern.ch") u
         /\ passes Col_access_token (Some EmptyString) u.
Proof.
  apply (get_users_selects cfg_demo admin_demo store_demo None
           (Some "jane@cern.ch") (Some EmptyString)).
  reflexivity.
Defined.

(** With no criterion, or only empty ones, [_get_users] returns the whole
    table. *)
Theorem get_users_without_criteria cfg (admin : User.t) (s : Session)
    (_id email user_access_token : option string) :
  filter (has_id (ADMIN_USER_ID cfg)) (db s) = [admin] ->
  truthy _id = false -> truthy email = false ->
  truthy user_access_token = false ->
  _get_users cfg _id email user_access_token (User.access_token admin) s
    = (Ok (db s), s).
Proof.
  intros Hadmin Hi He Ht. rewrite _get_users_unfold.
  rewrite (check_admin_present _ _ _ _ Hadmin), String.eqb_refl.
  assert (Hc : forall c v, truthy v = false -> criterion c v = []).
  { intros c [x|] H; simpl in *; [now rewrite H|reflexivity]. }
  now rewrite (Hc _ _ Hi), (Hc _ _ He), (Hc _ _ Ht), filter_all.
Qed.

Lemma get_users_without_criteria_witness :
  _get_users cfg_demo (Some EmptyString) None (Some EmptyString) "s3cr3t" store_demo
    = (Ok (db store_demo), store_demo).
Proof.
  apply (get_users_without_criteria cfg_demo admin_demo store_demo
           (Some EmptyString) None (Some EmptyString)); reflexivity.
Defined.

(** ** Creating a user *)

Lemma check_admin_raises cfg token s e s' :
  check_admin cfg token s = (Raise e, s') -> is_sqlalchemy_error e = false.
Proof.
  unfold check_admin, query_one_or_none, query_all. run_M.
  destruct (filter (matches [(Col_id_, ADMIN_USER_ID cfg)]) (db s))
    as [|a [|b l]]; simpl.
  - now intros [= <- _].
  - destruct (negb _); [|discriminate]. now intros [= <- _].
  - now intros [= <- _].
Qed.

Lemma _create_user_run cfg rnd email t token s :
  check_admin cfg token s = (Ok tt, s) ->
  _create_user cfg rnd email t token s =
    let user := User.mk (generate_uuid rnd) email (token_for rnd t) in
    match flush (db s) (pending s ++ [user]) with
    | Some table => (Ok user, mkSession table [])
    | None => (Raise constraint_violation, mkSession (db s) [])
    end.
Proof.
  intros H. unfold _create_user, try_except.
  rewrite (bind_Ok _ _ _ _ _ H). cbv zeta. fold (token_for rnd t).
  unfold Session_add, Session_commit. run_M. simpl.
  now destruct (flush (db s) (pending s ++ _)).
Qed.

Lemma no_clash_no_token user table :
  existsb (clash user) table = false ->
  filter (stores_token (User.access_token user)) table = [].
Proof.
  intros H. apply filter_nil_iff. intros v Hv. unfold stores_token.
  destruct (String.eqb (User.access_token v) (User.access_token user)) eqn:E;
    [|reflexivity].
  assert (Hc : existsb (clash user) table = true).
  { apply existsb_exists. exists v. split; [exact Hv|].
    unfold clash. rewrite (String.eqb_sym (User.access_token user)), E.
    apply orb_true_r. }
  congruence.
Qed.

(** With the admin token, a clean session and a new row that clashes with
    no row of the table, [_create_user] appends the row, with the email
    given, the token supplied (or the drawn one when none or an empty one is
    supplied), and returns it; [get_user_from_token] with that token then
    returns the same user. *)
Theorem create_user_then_resolve cfg (rnd : draws) (admin : User.t)
    (s : Session) (email : string) (user_access_token : option string) :
  let user := User.mk (generate_uuid rnd) email (token_for rnd user_access_token) in
  let s1 := mkSession (db s ++ [user]) [] in
  filter (has_id (ADMIN_USER_ID cfg)) (db s) = [admin] ->
  pending s = [] ->
  existsb (clash user) (db s) = false ->
  _create_user cfg rnd email user_access_token (User.access_token admin) s
    = (Ok user, s1)
  /\ get_user_from_token (token_for rnd user_access_token) s1 = (Ok user, s1).
Proof.
  intros user s1 Hadmin Hpend Hfree. split.
  - rewrite _create_user_run.
    + cbv zeta. fold user. rewrite Hpend. simpl. now rewrite Hfree.
    + rewrite (check_admin_present _ _ _ _ Hadmin). now rewrite String.eqb_refl.
  - unfold get_user_from_token, query_one_or_none, query_all. run_M.
    rewrite filter_by_token. unfold s1. cbn [db]. rewrite filter_app.
    change (token_for rnd user_access_token) with (User.access_token user).
    rewrite (no_clash_no_token _ _ Hfree). simpl.
    unfold stores_token. now rewrite String.eqb_refl.
Qed.

Lemma create_user_then_resolve_witness :
  _create_user cfg_demo draws_demo "ann@cern.ch" (Some EmptyString) "s3cr3t"
    store_demo
    = (Ok (User.mk "c0ffee" "ann@cern.ch" "Zq3k9v0yTn1xW2b4Lr8pMA"),
       mkSession (db store_demo
                  ++ [User.mk "c0ffee" "ann@cern.ch" "Zq3k9v0yTn1xW2b4Lr8pMA"]) [])
  /\ get_user_from_token "Zq3k9v0yTn1xW2b4Lr8pMA"
       (mkSession (db store_demo
                   ++ [User.mk "c0ffee" "ann@cern.ch" "Zq3k9v0yTn1xW2b4Lr8pMA"]) [])
     = (Ok (User.mk "c0ffee" "ann@cern.ch" "Zq3k9v0yTn1xW2b4Lr8pMA"),
        mkSession (db store_demo
                   ++ [User.mk "c0ffee" "ann@cern.ch" "Zq3k9v0yTn1xW2b4Lr8pMA"]) []).
Proof.
  apply (create_user_then_resolve cfg_demo draws_demo admin_demo store_demo
           "ann@cern.ch" (Some EmptyString)); reflexivity.
Defined.

(** When the new row clashes with a row of the table (or with an object
    still pending in the session), [_create_user] rolls back and raises
    [ValueError('Could not create user, possible constraint violation')]:
    the table is as before and nothing stays pending. *)
Theorem create_user_conflict cfg (rnd : draws) (admin : User.t) (s : Session)
    (email : string) (user_access_token : option string) :
  let user := User.mk (generate_uuid rnd) email (token_for rnd user_access_token) in
  filter (has_id (ADMIN_USER_ID cfg)) (db s) = [admin] ->
  existsb (clash user) (db s ++ pending s) = true ->
  _create_user cfg rnd email user_access_token (User.access_token admin) s
    = (Raise constraint_violation, mkSession (db s) []).
Proof.
  intros user Hadmin Hclash. rewrite _create_user_run.
  - cbv zeta. fold user. rewrite flush_violates; [reflexivity|].
    exists (pending s), user, []. split; [reflexivity|exact Hclash].
  - rewrite (check_admin_present _ _ _ _ Hadmin). now rewrite String.eqb_refl.
Qed.

Lemma create_user_conflict_witness :
  _create_user cfg_demo draws_demo "jane@cern.ch" None "s3cr3t" store_demo
    = (Raise constraint_violation, mkSession (db store_demo) []).
Proof.
  apply (create_user_conflict cfg_demo draws_demo admin_demo store_demo
           "jane@cern.ch" None); reflexivity.
Defined.

(** ** Flushing a table without clashes; provisioning without an email *)

Lemma flush_keeps_unique table new table' :
  unique_rows table = true ->
  flush table new = Some table' -> unique_rows table' = true.
Proof.
  intros Hu H. rewrite (flush_unique _ _ Hu) in H.
  destruct (unique_rows (table ++ new)) eqn:E; [|discriminate].
  now injection H as <-.
Qed.

Lemma provision_without_email rnd account_info s :
  account_email account_info = None ->
  _create_and_associate_reana_user rnd account_info s
    = (Raise (ValueError "Could not create user"), s).
Proof.
  intros H. unfold account_email in H.
  unfold _create_and_associate_reana_user, subscript. run_M.
  destruct account_info as [info|]; [|reflexivity].
  destruct (assoc "user" info) as [user_info|]; [|reflexivity].
  now rewrite H.
Qed.

(** ** Looking a user up by email *)

Lemma unique_rows_email_owner email table u :
  unique_rows table = true -> In u table -> User.email u = email ->
  filter (has_email email) table = [u].
Proof.
  intros Hu Hin He.
  assert (Hf : In u (filter (has_email email) table)).
  { apply filter_In. split; [exact Hin|]. unfold has_email.
    now apply String.eqb_eq. }
  destruct (filter (has_email email) table) as [|v rest] eqn:Ef; [easy|].
  pose proof (unique_rows_one_email _ _ _ _ Hu Ef) as ->.
  destruct Hf as [->|[]]. reflexivity.
Qed.

(** [_get_user_from_invenio_user] returns the row with the given email
    when the table has exactly one, and raises
    [ValueError('No users registered with this id')] when it has none; on a
    table without clashes every user is found by its own email. *)
Theorem get_user_from_invenio_user_finds (s : Session) (id : string) :
  (forall u, filter (has_email id) (db s) = [u] ->
             _get_user_from_invenio_user id s = (Ok u, s))
  /\ ((forall u, In u (db s) -> User.email u <> id) ->
      _get_user_from_invenio_user id s = (Raise no_user_with_id, s))
  /\ (unique_rows (db s) = true ->
      forall u, In u (db s) ->
        _get_user_from_invenio_user (User.email u) s = (Ok u, s)).
Proof.
  assert (Hone : forall email u, filter (has_email email) (db s) = [u] ->
                 _get_user_from_invenio_user email s = (Ok u, s)).
  { intros email u H.
    unfold _get_user_from_invenio_user, query_one_or_none, query_all. run_M.
    now rewrite filter_by_email, H. }
  split; [apply Hone|]. split.
  - intros H.
    assert (E : filter (has_email id) (db s) = []).
    { apply filter_nil_iff. intros u Hu. apply String.eqb_neq. now apply H. }
    unfold _get_user_from_invenio_user, query_one_or_none, query_all. run_M.
    now rewrite filter_by_email, E.
  - intros Hu u Hin. apply Hone.
    now apply unique_rows_email_owner.
Qed.

Lemma get_user_from_invenio_user_finds_witness :
  _get_user_from_invenio_user "jane@cern.ch" store_demo
    = (Ok (User.mk "7d3a" "jane@cern.ch" "tok-jane"), store_demo)
  /\ _get_user_from_invenio_user "joe@cern.ch" store_demo
     = (Raise no_user_with_id, store_demo).
Proof.
  split.
  - apply (proj1 (get_user_from_invenio_user_finds store_demo "jane@cern.ch")).
    reflexivity.
  - apply (proj1 (proj2 (get_user_from_invenio_user_finds store_demo
                           "joe@cern.ch"))).
    intros u Hu. simpl in Hu.
    destruct Hu as [<-|[<-|[]]]; simpl; discriminate.
Defined.

(** The user that [_create_and_associate_reana_user] returns for an email
    is the one [_get_user_from_invenio_user] finds under that email
    afterwards, on a table without clashes. *)
Theorem provisioned_user_is_found (rnd : draws) account_info (email : string)
    (s s1 : Session) (user : User.t) :
  account_email account_info = Some email ->
  unique_rows (db s) = true ->
  _create_and_associate_reana_user rnd account_info s = (Ok user, s1) ->
  _get_user_from_invenio_user email s1 = (Ok user, s1).
Proof.
  intros Hinfo Hu H. rewrite (provision_run _ _ _ _ Hinfo) in H.
  assert (Hone : filter (has_email email) (db s1) = [user]).
  { destruct (filter (has_email email) (db s)) as [|u rest] eqn:Ef.
    - cbv zeta in H.
      destruct (flush (db s) _) as [table|] eqn:Ef'; [|discriminate].
      injection H as <- <-. cbn [db].
      pose proof (flush_keeps_unique _ _ _ Hu Ef') as Hu'.
      apply flush_Some in Ef'. subst table.
      apply unique_rows_email_owner; [exact Hu'| |reflexivity].
      apply in_or_app. right. apply in_or_app. right. now left.
    - injection H as <- <-.
      now rewrite (unique_rows_one_email _ _ _ _ Hu Ef) in Ef. }
  unfold _get_user_from_invenio_user, query_one_or_none, query_all. run_M.
  now rewrite filter_by_email, Hone.
Qed.

Lemma provisioned_user_is_found_witness :
  _get_user_from_invenio_user "ann@cern.ch"
    (mkSession (db store_demo
                ++ [User.mk "c0ffee" "ann@cern.ch" "Zq3k9v0yTn1xW2b4Lr8pMA"]) [])
  = (Ok (User.mk "c0ffee" "ann@cern.ch" "Zq3k9v0yTn1xW2b4Lr8pMA"),
     mkSession (db store_demo
                ++ [User.mk "c0ffee" "ann@cern.ch" "Zq3k9v0yTn1xW2b4Lr8pMA"]) []).
Proof.
  apply (provisioned_user_is_found draws_demo account_info_demo "ann@cern.ch"
           store_demo); reflexivity.
Defined.

(** ** Errors of the provisioning *)

(** [_create_and_associate_reana_user] lets no exception out but
    ValueError, and when it raises the table is as before.  Without
    [account_info], or without its keys [user] and [email], the error is
    [ValueError('Could not create user')] and the session is untouched. *)
Theorem provisioning_raises_only_ValueError (rnd : draws) account_info
    (s : Session) :
  ((exists user s', _create_and_associate_reana_user rnd account_info s
                      = (Ok user, s'))
   \/ (exists msg s', _create_and_associate_reana_user rnd account_info s
                        = (Raise (ValueError msg), s')
                      /\ db s' = db s))
  /\ (account_email account_info = None ->
      _create_and_associate_reana_user rnd account_info s
        = (Raise could_not_create, s)).
Proof.
  split; [|apply provision_without_email].
  destruct (account_email account_info) as [email|] eqn:Ee.
  - rewrite (provision_run _ _ _ _ Ee).
    destruct (filter (has_email email) (db s)) as [|u rest]; [|eauto].
    cbv zeta. destruct (flush (db s) _) as [table|]; [eauto|].
    right. eexists. eexists. split; reflexivity.
  - right. rewrite (provision_without_email _ _ _ Ee).
    eexists. eexists. split; reflexivity.
Qed.

(** ** Rows the import cannot use *)

Lemma User_of_row_three_columns row :
  three_columns row -> exists u, User_of_row row = Ok u.
Proof.
  unfold three_columns. intros H.
  destruct row as [|a [|b [|c rest]]]; simpl in H; try lia.
  eexists. reflexivity.
Qed.

Lemma User_of_row_short row :
  length row < 3 -> User_of_row row = Raise index_out_of_range.
Proof.
  intros H. destruct row as [|a [|b [|c rest]]]; simpl in H; try lia;
    reflexivity.
Qed.

Lemma import_loop_short before short after s :
  Forall three_columns before ->
  length short < 3 ->
  for_each (before ++ short :: after) add_row s
    = (Raise index_out_of_range,
       mkSession (db s) (pending s ++ users_of before)).
Proof.
  intros Hb Hs. revert s. induction Hb as [|row before Hrow Hb IH]; intros s.
  - simpl. rewrite app_nil_r.
    assert (H : add_row short s = (Raise index_out_of_range, s))
      by (unfold add_row; run_M; now rewrite (User_of_row_short _ Hs)).
    rewrite (bind_Raise _ _ _ _ _ H). now destruct s.
  - destruct (User_of_row_three_columns _ Hrow) as [u Eu].
    cbn [app for_each users_of]. rewrite Eu.
    assert (H : add_row row s = (Ok tt, mkSession (db s) (pending s ++ [u])))
      by (unfold add_row, Session_add; run_M; now rewrite Eu).
    rewrite (bind_Ok _ _ _ _ _ H), IH. cbn [db pending].
    now rewrite <- app_assoc.
Qed.

(** A row with fewer than three columns (a blank line gives an empty row)
    stops [_import_users] with IndexError before anything is committed: the
    table is as before, and the users of the rows before it stay pending in
    the session, which is neither rolled back nor removed. *)
Theorem import_stops_at_short_row cfg (token text : string) (s : Session)
    (before after : list (list string)) (short : list string) :
  check_admin cfg token s = (Ok tt, s) ->
  fst (csv.reader text) = before ++ short :: after ->
  Forall three_columns before ->
  length short < 3 ->
  _import_users cfg token text s
    = (Raise index_out_of_range,
       mkSession (db s) (pending s ++ users_of before)).
Proof.
  intros Hc Hrows Hb Hs. unfold _import_users.
  rewrite (bind_Ok _ _ _ _ _ Hc). cbv zeta. rewrite Hrows.
  now rewrite (bind_Raise _ _ _ _ _ (import_loop_short _ _ _ s Hb Hs)).
Qed.

Lemma import_stops_at_short_row_witness :
  _import_users cfg_demo "s3cr3t" csv_blank_line store_demo
    = (Raise index_out_of_range,
       mkSession (db store_demo) [User.mk "9f1e" "ann@cern.ch" "tok-ann"]).
Proof.
  apply (import_stops_at_short_row cfg_demo "s3cr3t" csv_blank_line store_demo
           [["9f1e"; "ann@cern.ch"; "tok-ann"]]
           [["52c0"; "bob@cern.ch"; "tok-bob"]] []).
  - reflexivity.
  - reflexivity.
  - constructor; [unfold three_columns; simpl; lia|constructor].
  - simpl; lia.
Defined.

Lemma provisioning_raises_only_ValueError_witness :
  _create_and_associate_reana_user draws_demo None store_demo
    = (Raise could_not_create, store_demo)
  /\ _create_and_associate_reana_user draws_demo (Some [("user", [])]) store_demo
     = (Raise could_not_create, store_demo).
Proof.
  split.
  - apply (proj2 (provisioning_raises_only_ValueError draws_demo None store_demo)).
    reflexivity.
  - apply (proj2 (provisioning_raises_only_ValueError draws_demo
                    (Some [("user", [])]) store_demo)).
    reflexivity.
Defined.

(** ** Operations that only read *)

(** [get_user_from_token], [_get_users], [_export_users] and
    [_get_user_from_invenio_user] leave the session as it is, whether they
    return or raise. *)
Theorem readers_leave_session cfg (s : Session) :
  (forall token r s', get_user_from_token token s = (r, s') -> s' = s)
  /\ (forall i e t token r s', _get_users cfg i e t token s = (r, s') -> s' = s)
  /\ (forall token r s', _export_users cfg token s = (r, s') -> s' = s)
  /\ (forall id r s', _get_user_from_invenio_user id s = (r, s') -> s' = s).
Proof.
  split; [|split; [|split]].
  - intros token r s'.
    unfold get_user_from_token, query_one_or_none, query_all. run_M.
    destruct (one_or_none _) as [[u|]|e]; now intros [= _ <-].
  - intros i e t token r s'. rewrite _get_users_unfold.
    destruct (check_admin_cases cfg token s) as [Hc|[x Hc]]; rewrite Hc;
      now intros [= _ <-].
  - intros token r s'.
    destruct (check_admin_cases cfg token s) as [Hc|[x Hc]].
    + rewrite (export_granted _ _ _ Hc). now intros [= _ <-].
    + rewrite (_export_users_denied _ _ _ _ Hc). now intros [= _ <-].
  - intros id r s'.
    unfold _get_user_from_invenio_user, query_one_or_none, query_all. run_M.
    destruct (one_or_none _) as [[u|]|e]; now intros [= _ <-].
Qed.

Lemma readers_leave_session_witness :
  mkSession (db store_demo) [admin_other] = mkSession (db store_demo) [admin_other].
Proof.
  apply (proj1 (proj2 (proj2 (readers_leave_session cfg_demo
                                (mkSession (db store_demo) [admin_other]))))
           "s3cr3t" (Ok (csv_of (db store_demo)))).
  reflexivity.
Defined.

(** ** The handlers of the REST interface *)

(** Splits on the innermost scrutinee of the goal, again and again. *)
Ltac split_cases :=
  repeat (cbn beta iota;
          match goal with
          | |- context [match ?x with _ => _ end] =>
              lazymatch x with
              | context [match _ with _ => _ end] => fail
              | _ => destruct x eqn:?
              end
          | |- context [if ?x then _ else _] =>
              lazymatch x with
              | context [match _ with _ => _ end] => fail
              | _ => destruct x eqn:?
              end
          end).

Section Handlers.

Variable cfg : config.
Variable env : collaborators.

(** [get_analyses] always answers, and with one remote call, which asks
    for the workflows of the organization [default] and of the fixed user
    of zeros: status 200 with the result of the call, or status 500 with the
    message of its error. *)
Theorem get_analyses_answers (log : list call) :
  get_analyses env log
    = (Ok (match get_workflows env "default" zero_user with
           | Ok res => {| body := res; status := 200 |}
           | Raise e => {| body := message e; status := 500 |}
           end),
       log ++ [Call_get_workflows "default" zero_user]).
Proof.
  unfold get_analyses. run_M. unfold zero_user.
  now destruct (get_workflows env _ _).
Qed.

(** [create_analysis] never raises: it answers with status 200, 400 or
    500, and on the way it makes no remote call or a single one, to
    [create_yadage_workflow] for the organization and the user of the
    request. *)
Theorem create_analysis_answers (r : request) (log : list call) :
  exists response calls,
    create_analysis cfg env r log = (Ok response, log ++ calls)
    /\ (status response = 200 \/ status response = 400
        \/ status response = 500)%Z
    /\ (calls = []
        \/ exists yadage_payload,
             calls = [Call_create_yadage_workflow yadage_payload
                        (assoc "organization" (args r))
                        (assoc "user" (args r))]).
Proof.
  unfold create_analysis, files_getitem. run_M. unfold ret, raise. simpl.
  split_cases;
    first [ (eexists; exists []; rewrite app_nil_r;
             split; [reflexivity|]; split; [simpl; tauto|now left])
          | (eexists; eexists; split; [reflexivity|];
             split; [simpl; tauto|right; eexists; reflexivity]) ].
Qed.

(** An answer with status 200 comes only from a dispatch that went
    through: the engine is yadage, the upload was decoded into a document
    with the four fields, the one remote call carried exactly these, and the
    body of the answer is what the call returned. *)
Theorem status_200_means_dispatched (r : request) (log log' : list call)
    (response : http_response) :
  create_analysis cfg env r log = (Ok response, log') ->
  status response = 200%Z ->
  exists bytes text document toplevel workflow nparallel preset_pars,
    assoc "workflow_engine" (args r) = Some "yadage"
    /\ assoc "analysis_payload" (files r) = Some bytes
    /\ decode_UTF8 env bytes = Ok text
    /\ json_loads env text = Ok document
    /\ getitem document "toplevel" = Ok toplevel
    /\ getitem document "workflow" = Ok workflow
    /\ getitem document "nparallel" = Ok nparallel
    /\ getitem document "preset_pars" = Ok preset_pars
    /\ create_yadage_workflow env
         (yadage_payload_of toplevel workflow nparallel preset_pars)
         (assoc "organization" (args r)) (assoc "user" (args r))
       = Ok (body response)
    /\ log' = log ++ [Call_create_yadage_workflow
                        (yadage_payload_of toplevel workflow nparallel preset_pars)
                        (assoc "organization" (args r)) (assoc "user" (args r))].
Proof.
  unfold create_analysis, files_getitem. run_M. unfold ret, raise. simpl.
  destruct (assoc "workflow_engine" (args r)) as [engine|] eqn:Ee; simpl;
    [|intros [= <- _]; discriminate].
  destruct (existsb (String.eqb engine) (AVAILABLE_WORKFLOW_ENGINES cfg)); simpl;
    [|intros [= <- _]; discriminate].
  destruct (assoc "analysis_payload" (files r)) as [bytes|]; simpl;
    [|intros [= <- _]; discriminate].
  destruct (decode_UTF8 env bytes) as [text|e] eqn:Ed; simpl;
    [|destruct (is_KeyError e); intros [= <- _]; discriminate].
  destruct (json_loads env text) as [document|e] eqn:Ej; simpl;
    [|destruct (is_KeyError e); intros [= <- _]; discriminate].
  destruct (String.eqb engine "yadage") eqn:Ey; simpl;
    [|intros [= <- _]; discriminate].
  apply String.eqb_eq in Ey. subst engine.
  destruct (getitem document "toplevel") as [toplevel|e] eqn:E1; simpl;
    [|destruct (is_KeyError e); intros [= <- _]; discriminate].
  destruct (getitem document "workflow") as [workflow|e] eqn:E2; simpl;
    [|destruct (is_KeyError e); intros [= <- _]; discriminate].
  destruct (getitem document "nparallel") as [nparallel|e] eqn:E3; simpl;
    [|destruct (is_KeyError e); intros [= <- _]; discriminate].
  destruct (getitem document "preset_pars") as [preset_pars|e] eqn:E4; simpl;
    [|destruct (is_KeyError e); intros [= <- _]; discriminate].
  destruct (create_yadage_workflow env _ _ _) as [res|e] eqn:Ec; simpl;
    [|destruct (is_KeyError e); intros [= <- _]; discriminate].
  intros [= <- <-] _.
  exists bytes, text, document, toplevel, workflow, nparallel, preset_pars.
  repeat (split; [assumption || reflexivity|]). reflexivity.
Qed.

(** An engine that the configuration lists and that is not yadage gets no
    dispatch at all: [res] is never assigned, and the answer is status 500
    with the message of the UnboundLocalError. *)
Theorem other_configured_engine_answers_500 (r : request) (log : list call)
    (bytes text : string) (document : value) :
  contains (AVAILABLE_WORKFLOW_ENGINES cfg) (assoc "workflow_engine" (args r))
    = true ->
  is_engine (assoc "workflow_engine" (args r)) "yadage" = false ->
  assoc "analysis_payload" (files r) = Some bytes ->
  decode_UTF8 env bytes = Ok text ->
  json_loads env text = Ok document ->
  create_analysis cfg env r log
    = (Ok {| body := message (UnboundLocalError "res"); status := 500 |}, log).
Proof.
  intros Hin Hy Hf Hd Hj. unfold create_analysis, files_getitem. run_M.
  now rewrite Hin, Hy, Hf, Hd, Hj.
Qed.

(** When the dispatch itself fails, the answer carries the message of the
    error of the workflow controller as it is, with status 500 (400 when
    the error is a KeyError); the call was made once. *)
Theorem failed_dispatch_is_reported (r : request) (log : list call)
    (bytes text : string)
    (document toplevel workflow nparallel preset_pars : value) (e : exn) :
  assoc "workflow_engine" (args r) = Some "yadage" ->
  contains (AVAILABLE_WORKFLOW_ENGINES cfg) (Some "yadage") = true ->
  assoc "analysis_payload" (files r) = Some bytes ->
  decode_UTF8 env bytes = Ok text ->
  json_loads env text = Ok document ->
  getitem document "toplevel" = Ok toplevel ->
  getitem document "workflow" = Ok workflow ->
  getitem document "nparallel" = Ok nparallel ->
  getitem document "preset_pars" = Ok preset_pars ->
  create_yadage_workflow env
    (yadage_payload_of toplevel workflow nparallel preset_pars)
    (assoc "organization" (args r)) (assoc "user" (args r)) = Raise e ->
  create_analysis cfg env r log
    = (Ok {| body := message e; status := status_of e |},
       log ++ [Call_create_yadage_workflow
                 (yadage_payload_of toplevel workflow nparallel preset_pars)
                 (assoc "organization" (args r)) (assoc "user" (args r))]).
Proof.
  intros He Hin Hf Hd Hj H1 H2 H3 H4 Hres.
  unfold create_analysis, files_getitem. run_M.
  rewrite He, Hin, Hf. simpl. rewrite Hd, Hj, H1, H2, H3, H4.
  unfold yadage_payload_of in Hres. rewrite Hres. simpl.
  unfold status_of. now destruct (is_KeyError e).
Qed.

(** What the client left out is answered with status 400 and no remote
    call: a request for yadage without the upload [analysis_payload], or
    with a document, a dict, that lacks one of the four fields; the message
    names the first field that is missing. *)
Theorem missing_input_answers_400 (r : request) (log : list call) :
  assoc "workflow_engine" (args r) = Some "yadage" ->
  contains (AVAILABLE_WORKFLOW_ENGINES cfg) (Some "yadage") = true ->
  (assoc "analysis_payload" (files r) = None ->
   create_analysis cfg env r log
     = (Ok {| body := message (BadRequestKeyError "analysis_payload");
              status := 400 |}, log))
  /\ (forall bytes text entries key,
        assoc "analysis_payload" (files r) = Some bytes ->
        decode_UTF8 env bytes = Ok text ->
        json_loads env text = Ok (VDict entries) ->
        first_missing entries = Some key ->
        create_analysis cfg env r log
          = (Ok {| body := message (KeyError key); status := 400 |}, log)).
Proof.
  intros He Hin. split.
  - intros Hf. unfold create_analysis, files_getitem. run_M.
    now rewrite He, Hin, Hf.
  - intros bytes text entries key Hf Hd Hj Hm.
    unfold create_analysis, files_getitem. run_M.
    rewrite He, Hin, Hf. simpl. rewrite Hd, Hj. simpl.
    unfold first_missing, yadage_fields in Hm. simpl in Hm.
    destruct (assoc "toplevel" entries); [|now injection Hm as <-].
    destruct (assoc "workflow" entries); [|now injection Hm as <-].
    destruct (assoc "nparallel" entries); [|now injection Hm as <-].
    destruct (assoc "preset_pars" entries); [discriminate|now injection Hm as <-].
Qed.

End Handlers.

Lemma status_200_means_dispatched_witness :
  exists bytes text document toplevel workflow nparallel preset_pars,
    assoc "workflow_engine" (args request_yadage) = Some "yadage"
    /\ assoc "analysis_payload" (files request_yadage) = Some bytes
    /\ decode_UTF8 env_demo bytes = Ok text
    /\ json_loads env_demo text = Ok document
    /\ getitem document "toplevel" = Ok toplevel
    /\ getitem document "workflow" = Ok workflow
    /\ getitem document "nparallel" = Ok nparallel
    /\ getitem document "preset_pars" = Ok preset_pars
    /\ create_yadage_workflow env_demo
         (yadage_payload_of toplevel workflow nparallel preset_pars)
         (assoc "organization" (args request_yadage))
         (assoc "user" (args request_yadage))
       = Ok (body {| body := launched; status := 200 |})
    /\ [Call_create_yadage_workflow
          (yadage_payload_of (VStr "workflow.yaml") (VDict [("stages", VList [])])
             (VInt 2) (VDict []))
          (Some "default") (Some "7d3a")]
       = [] ++ [Call_create_yadage_workflow
                  (yadage_payload_of toplevel workflow nparallel preset_pars)
                  (assoc "organization" (args request_yadage))
                  (assoc "user" (args request_yadage))].
Proof.
  apply (status_200_means_dispatched cfg_demo env_demo request_yadage []
           _ {| body := launched; status := 200 |}); reflexivity.
Defined.

Lemma other_configured_engine_answers_500_witness :
  create_analysis cfg_two_engines env_demo request_cwl []
    = (Ok {| body := VDict [("message",
                             VStr "local variable 'res' referenced before assignment")];
             status := 500 |}, []).
Proof.
  apply (other_configured_engine_answers_500 cfg_two_engines env_demo
           request_cwl [] "payload.json" "payload.json" document_demo);
    reflexivity.
Defined.

Lemma failed_dispatch_is_reported_witness :
  create_analysis cfg_demo env_controller_down request_yadage []
    = (Ok {| body := VDict [("message", VStr "502 Bad Gateway")]; status := 500 |},
       [Call_create_yadage_workflow
          (yadage_payload_of (VStr "workflow.yaml") (VDict [("stages", VList [])])
             (VInt 2) (VDict []))
          (Some "default") (Some "7d3a")]).
Proof.
  apply (failed_dispatch_is_reported cfg_demo env_controller_down request_yadage
           [] "payload.json" "payload.json" document_demo
           (VStr "workflow.yaml") (VDict [("stages", VList [])]) (VInt 2)
           (VDict []) (OtherError "HTTPError" "502 Bad Gateway")); reflexivity.
Defined.

Lemma missing_input_answers_400_witness :
  create_analysis cfg_demo env_demo request_without_upload []
    = (Ok {| body := message (BadRequestKeyError "analysis_payload");
             status := 400 |}, [])
  /\ create_analysis cfg_demo env_down request_yadage []
     = (Ok {| body := VDict [("message", VStr "'nparallel'")]; status := 400 |}, []).
Proof.
  split.
  - apply (proj1 (missing_input_answers_400 cfg_demo env_demo
                    request_without_upload [] eq_refl eq_refl)).
    reflexivity.
  - apply (proj2 (missing_input_answers_400 cfg_demo env_down request_yadage []
                    eq_refl eq_refl)
             "payload.json" "payload.json"
             [("toplevel", VStr "workflow.yaml"); ("workflow", VDict [])]
             "nparallel"); reflexivity.
Defined.

(** ** More on the resolution of a webhook *)

Section Resolution.

Variable cfg : config.
Variable env : collaborators.
Variable webhook_data : value.
Variable user_id : string.
Variable log : list call.

(** What follows the [if]/[elif] once it gave a branch and a commit. *)
Lemma resolution_with_locals (branch commit_sha project project_id path spec : value)
    (gitlab_token : string) (yaml_file : Response) :
  webhook_locals webhook_data log = (Ok (Some branch, Some commit_sha), log) ->
  get_secret_value env user_id "gitlab_access_token" = Ok gitlab_token ->
  getitem webhook_data "project" = Ok project ->
  getitem project "id" = Ok project_id ->
  getitem project "path_with_namespace" = Ok path ->
  requests_get env
    (gitlab_api_format cfg project_id "reana.yaml" branch gitlab_token)
    = Ok yaml_file ->
  yaml_load env (content yaml_file) = Ok spec ->
  _get_reana_yaml_from_gitlab cfg env webhook_data user_id log
    = (Ok (spec, path, branch, commit_sha),
       log ++ fetch_calls cfg user_id project_id branch gitlab_token).
Proof.
  intros Hl Hs Hp Hid Hpath Hget Hyaml.
  unfold _get_reana_yaml_from_gitlab. cbv zeta.
  rewrite (bind_Ok _ _ _ _ _ Hl). run_M. unfold fetch_calls. simpl.
  rewrite Hs, Hp, Hid. simpl. rewrite <- app_assoc. simpl.
  now rewrite Hget, Hyaml, Hpath.
Qed.

(** A push event: the file [reana.yaml] is fetched at the default branch
    of the project, with the GitLab token of the user, and the function
    returns the parsed file, the path of the project, the default branch
    and [checkout_sha]. *)
Theorem push_event_resolves (project project_id path branch commit_sha spec : value)
    (gitlab_token : string) (yaml_file : Response) :
  getitem webhook_data "object_kind" = Ok (VStr "push") ->
  getitem webhook_data "project" = Ok project ->
  getitem project "default_branch" = Ok branch ->
  getitem webhook_data "checkout_sha" = Ok commit_sha ->
  getitem project "id" = Ok project_id ->
  getitem project "path_with_namespace" = Ok path ->
  get_secret_value env user_id "gitlab_access_token" = Ok gitlab_token ->
  requests_get env
    (gitlab_api_format cfg project_id "reana.yaml" branch gitlab_token)
    = Ok yaml_file ->
  yaml_load env (content yaml_file) = Ok spec ->
  _get_reana_yaml_from_gitlab cfg env webhook_data user_id log
    = (Ok (spec, path, branch, commit_sha),
       log ++ [secret_call user_id;
               Call_requests_get
                 (gitlab_api_format cfg project_id "reana.yaml" branch
                    gitlab_token)]).
Proof.
  intros Hk Hp Hb Hc Hid Hpath Hs Hget Hyaml.
  apply (resolution_with_locals branch commit_sha project project_id path spec
           gitlab_token yaml_file); try assumption.
  unfold webhook_locals. run_M. rewrite Hk. simpl. now rewrite Hp, Hb, Hc.
Qed.

(** A merge request event: the file is fetched at the source branch of the
    request (not at its last commit), and the function returns the parsed
    file, the path of the project, the source branch and the id of the last
    commit. *)
Theorem merge_request_event_resolves
    (attrs last_commit project project_id path branch commit_sha spec : value)
    (gitlab_token : string) (yaml_file : Response) :
  getitem webhook_data "object_kind" = Ok (VStr "merge_request") ->
  getitem webhook_data "object_attributes" = Ok attrs ->
  getitem attrs "source_branch" = Ok branch ->
  getitem attrs "last_commit" = Ok last_commit ->
  getitem last_commit "id" = Ok commit_sha ->
  getitem webhook_data "project" = Ok project ->
  getitem project "id" = Ok project_id ->
  getitem project "path_with_namespace" = Ok path ->
  get_secret_value env user_id "gitlab_access_token" = Ok gitlab_token ->
  requests_get env
    (gitlab_api_format cfg project_id "reana.yaml" branch gitlab_token)
    = Ok yaml_file ->
  yaml_load env (content yaml_file) = Ok spec ->
  _get_reana_yaml_from_gitlab cfg env webhook_data user_id log
    = (Ok (spec, path, branch, commit_sha),
       log ++ [secret_call user_id;
               Call_requests_get
                 (gitlab_api_format cfg project_id "reana.yaml" branch
                    gitlab_token)]).
Proof.
  intros Hk Ha Hb Hl Hc Hp Hid Hpath Hs Hget Hyaml.
  apply (resolution_with_locals branch commit_sha project project_id path spec
           gitlab_token yaml_file); try assumption.
  unfold webhook_locals. run_M. rewrite Hk. simpl. now rewrite Ha, Hb, Hl, Hc.
Qed.

(** An event from which the branch and the commit cannot be read (a key is
    missing, or a value is no dict) makes the function raise the error of
    that read before any remote call; so does an event without
    [object_kind]. *)
Theorem unreadable_event_fails_before_any_call :
  (forall e, webhook_locals webhook_data log = (Raise e, log) ->
             _get_reana_yaml_from_gitlab cfg env webhook_data user_id log
               = (Raise e, log))
  /\ (forall e, getitem webhook_data "object_kind" = Raise e ->
                _get_reana_yaml_from_gitlab cfg env webhook_data user_id log
                  = (Raise e, log))
  /\ (forall project branch e,
        getitem webhook_data "object_kind" = Ok (VStr "push") ->
        getitem webhook_data "project" = Ok project ->
        getitem project "default_branch" = Ok branch ->
        getitem webhook_data "checkout_sha" = Raise e ->
        _get_reana_yaml_from_gitlab cfg env webhook_data user_id log
          = (Raise e, log)).
Proof.
  assert (H : forall e, webhook_locals webhook_data log = (Raise e, log) ->
              _get_reana_yaml_from_gitlab cfg env webhook_data user_id log
                = (Raise e, log)).
  { intros e He. unfold _get_reana_yaml_from_gitlab. cbv zeta.
    now rewrite (bind_Raise _ _ _ _ _ He). }
  split; [exact H|]. split.
  - intros e He. apply H. unfold webhook_locals. run_M. now rewrite He.
  - intros project branch e Hk Hp Hb Hc. apply H.
    unfold webhook_locals. run_M. rewrite Hk. simpl. now rewrite Hp, Hb, Hc.
Qed.

(** The remote calls of [_get_reana_yaml_from_gitlab], whatever the event
    and the answers: none; or the read of the secret
    [gitlab_access_token] of the user given; or that read, which succeeded,
    followed by one fetch of [reana.yaml] with the token read.  No other
    secret and no other user's secret is ever read, and the function
    returns only in the last case. *)
Theorem webhook_calls :
  exists r calls,
    _get_reana_yaml_from_gitlab cfg env webhook_data user_id log
      = (r, log ++ calls)
    /\ (calls = [] \/ calls = [secret_call user_id]
        \/ exists gitlab_token project_id branch,
             get_secret_value env user_id "gitlab_access_token" = Ok gitlab_token
             /\ calls = fetch_calls cfg user_id project_id branch gitlab_token)
    /\ (forall v, r = Ok v ->
          exists gitlab_token project_id branch,
            calls = fetch_calls cfg user_id project_id branch gitlab_token).
Proof.
  unfold _get_reana_yaml_from_gitlab, webhook_locals, fetch_calls, secret_call.
  run_M. unfold ret, raise. simpl.
  split_cases;
    repeat match goal with
           | H : (_, _) = (_, _) |- _ => injection H as <- <-
           | H : Ok _ = Ok _ |- _ => injection H as <-
           | H : Raise _ = Ok _ |- _ => discriminate H
           | H : Ok _ = Raise _ |- _ => discriminate H
           end;
    simpl;
    first
      [ (eexists; exists []; rewrite app_nil_r; split; [reflexivity|];
         split; [now left|discriminate])
      | (eexists; eexists; split; [reflexivity|];
         split; [right; left; reflexivity|discriminate])
      | (eexists; eexists; split; [rewrite <- app_assoc; reflexivity|];
         split; [right; right; eexists; eexists; eexists; split;
                 reflexivity
                |intros; eexists; eexists; eexists; reflexivity]) ].
Qed.

End Resolution.

Lemma push_event_resolves_witness :
  _get_reana_yaml_from_gitlab cfg_demo env_demo push_event "7d3a" []
    = (Ok (spec_demo, VStr "jane/analysis", VStr "master", VStr "da1560886d4f"),
       [secret_call "7d3a";
        Call_requests_get
          (gitlab_api_format cfg_demo (VInt 42) "reana.yaml" (VStr "master")
             "glpat-jane")]).
Proof.
  apply (push_event_resolves cfg_demo env_demo push_event "7d3a" []
           project_demo (VInt 42) (VStr "jane/analysis") (VStr "master")
           (VStr "da1560886d4f") spec_demo "glpat-jane"
           {| status_code := 200; content := "workflow: {type: serial}" |});
    reflexivity.
Defined.

Lemma merge_request_event_resolves_witness :
  _get_reana_yaml_from_gitlab cfg_demo env_demo merge_request_event "7d3a" []
    = (Ok (spec_demo, VStr "jane/analysis", VStr "fix-cuts", VStr "b45e1c0a"),
       [secret_call "7d3a";
        Call_requests_get
          (gitlab_api_format cfg_demo (VInt 42) "reana.yaml" (VStr "fix-cuts")
             "glpat-jane")]).
Proof.
  apply (merge_request_event_resolves cfg_demo env_demo merge_request_event
           "7d3a" []
           (VDict [("source_branch", VStr "fix-cuts");
                   ("last_commit", VDict [("id", VStr "b45e1c0a")])])
           (VDict [("id", VStr "b45e1c0a")])
           project_demo (VInt 42) (VStr "jane/analysis") (VStr "fix-cuts")
           (VStr "b45e1c0a") spec_demo "glpat-jane"
           {| status_code := 200; content := "workflow: {type: serial}" |});
    reflexivity.
Defined.

Lemma unreadable_event_fails_before_any_call_witness :
  _get_reana_yaml_from_gitlab cfg_demo env_demo (VDict []) "7d3a" []
    = (Raise (KeyError "object_kind"), [])
  /\ _get_reana_yaml_from_gitlab cfg_demo env_demo push_event_without_sha "7d3a" []
     = (Raise (KeyError "checkout_sha"), []).
Proof.
  split.
  - apply (proj1 (proj2 (unreadable_event_fails_before_any_call cfg_demo env_demo
                           (VDict []) "7d3a" []))).
    reflexivity.
  - apply (proj2 (proj2 (unreadable_event_fails_before_any_call cfg_demo env_demo
                           push_event_without_sha "7d3a" []))
             project_demo (VStr "master")); reflexivity.
Defined.

(** ** Recognising a version 4 UUID *)

Section Bits.

Local Open Scope Z_scope.

(** The bits of [hi * 2 ^ k + lo] are those of [lo] below [k] and those of
    [hi] from [k] on. *)
Lemma testbit_cat hi lo k i :
  0 <= k -> 0 <= lo < 2 ^ k -> 0 <= i ->
  Z.testbit (hi * 2 ^ k + lo) i
  = if i <? k then Z.testbit lo i else Z.testbit hi (i - k).
Proof.
  intros Hk Hlo Hi. destruct (i <? k) eqn:E.
  - apply Z.ltb_lt in E.
    rewrite <- (Z.mod_pow2_bits_low (hi * 2 ^ k + lo) k i E).
    rewrite Z.add_comm, Z_mod_plus_full. now rewrite Z.mod_small.
  - apply Z.ltb_ge in E.
    replace i with ((i - k) + k) at 1 by lia.
    rewrite <- Z.div_pow2_bits by lia.
    rewrite Z.div_add_l by (apply Z.pow_nonzero; lia).
    rewrite (Z.div_small lo) by exact Hlo. now rewrite Z.add_0_r.
Qed.

Lemma testbit_nibble_high m j : 0 <= m < 16 -> 4 <= j -> Z.testbit m j = false.
Proof.
  intros Hm Hj.
  rewrite <- (Z.mod_small m (2 ^ 4)) by (change (2 ^ 4) with 16; lia).
  apply Z.mod_pow2_bits_high. lia.
Qed.

Lemma field_bound f lo k :
  0 <= k -> 0 <= lo < 2 ^ k -> 0 <= f < 16 ->
  0 <= f * 2 ^ k + lo < 2 ^ (k + 4).
Proof.
  intros Hk Hlo Hf. rewrite Z.pow_add_r by lia. change (2 ^ 4) with 16. nia.
Qed.

(** Clearing bits of the four-bit field at [k]. *)
Lemma land_field H f lo m k :
  0 <= k -> 0 <= lo < 2 ^ k -> 0 <= f < 16 -> 0 <= m < 16 ->
  0 <= Z.land f (Z.lnot m) < 16 ->
  Z.land (H * 2 ^ (k + 4) + (f * 2 ^ k + lo)) (Z.lnot (m * 2 ^ k))
  = H * 2 ^ (k + 4) + (Z.land f (Z.lnot m) * 2 ^ k + lo).
Proof.
  intros Hk Hlo Hf Hm Hf'. apply Z.bits_inj'. intros i Hi.
  rewrite Z.land_spec, Z.lnot_spec, <- (Z.shiftl_mul_pow2 m k), Z.shiftl_spec
    by lia.
  rewrite !testbit_cat by (try apply field_bound; lia).
  destruct (i <? k + 4) eqn:E4; destruct (i <? k) eqn:Ek.
  - apply Z.ltb_lt in Ek. rewrite (Z.testbit_neg_r m) by lia. apply andb_true_r.
  - apply Z.ltb_ge in Ek. now rewrite Z.land_spec, Z.lnot_spec by lia.
  - apply Z.ltb_ge in E4. apply Z.ltb_lt in Ek. lia.
  - apply Z.ltb_ge in E4. rewrite (testbit_nibble_high m) by lia.
    apply andb_true_r.
Qed.

(** Setting bits of the four-bit field at [k]. *)
Lemma lor_field H f lo g k :
  0 <= k -> 0 <= lo < 2 ^ k -> 0 <= f < 16 -> 0 <= g < 16 ->
  0 <= Z.lor f g < 16 ->
  Z.lor (H * 2 ^ (k + 4) + (f * 2 ^ k + lo)) (g * 2 ^ k)
  = H * 2 ^ (k + 4) + (Z.lor f g * 2 ^ k + lo).
Proof.
  intros Hk Hlo Hf Hg Hf'. apply Z.bits_inj'. intros i Hi.
  rewrite Z.lor_spec, <- (Z.shiftl_mul_pow2 g k), Z.shiftl_spec by lia.
  rewrite !testbit_cat by (try apply field_bound; lia).
  destruct (i <? k + 4) eqn:E4; destruct (i <? k) eqn:Ek.
  - apply Z.ltb_lt in Ek. rewrite (Z.testbit_neg_r g) by lia. apply orb_false_r.
  - apply Z.ltb_ge in Ek. now rewrite Z.lor_spec.
  - apply Z.ltb_ge in E4. apply Z.ltb_lt in Ek. lia.
  - apply Z.ltb_ge in E4. rewrite (testbit_nibble_high g) by lia.
    apply orb_false_r.
Qed.

(** A number below 16 is one of sixteen. *)
Lemma nibble_cases (P : Z -> Prop) :
  (forall i : nat, (i < 16)%nat -> P (Z.of_nat i)) ->
  forall d, 0 <= d < 16 -> P d.
Proof.
  intros H d Hd. rewrite <- (Z2Nat.id d) by lia. apply H. lia.
Qed.

Ltac each_nibble d Hd :=
  revert d Hd; apply nibble_cases; intros d Hd;
  do 16 (destruct d as [|d]; [vm_compute; intuition (try discriminate; try lia)|]);
  lia.

Lemma variant_bounds d : 0 <= d < 16 ->
  0 <= Z.land d (Z.lnot 12) < 16
  /\ 0 <= Z.lor (Z.land d (Z.lnot 12)) 8 < 16.
Proof. intros Hd. each_nibble d Hd. Qed.

Lemma version_bounds d : 0 <= d < 16 ->
  Z.land d (Z.lnot 15) = 0.
Proof. intros Hd. each_nibble d Hd. Qed.

(** The four bit operations of [UUID] for version 4, on a number written
    with its 13th and 17th hexadecimal digits apart: the 13th digit becomes
    4, the 17th keeps its two low bits and gets 8, nothing else changes. *)
Lemma set_version_4 va dx vb dy vc :
  0 <= dx < 16 -> 0 <= vb < 2 ^ 12 -> 0 <= dy < 16 -> 0 <= vc < 2 ^ 60 ->
  Z.lor
    (Z.land
       (Z.lor
          (Z.land (va * 2 ^ 80 + (dx * 2 ^ 76 + (vb * 2 ^ 64 + (dy * 2 ^ 60 + vc))))
             (Z.lnot (Z.shiftl 0xc000 48)))
          (Z.shiftl 0x8000 48))
       (Z.lnot (Z.shiftl 0xf000 64)))
    (Z.shiftl 4 76)
  = va * 2 ^ 80
    + (4 * 2 ^ 76
       + (vb * 2 ^ 64 + (Z.lor (Z.land dy (Z.lnot 12)) 8 * 2 ^ 60 + vc))).
Proof.
  intros Hx Hb Hy Hc.
  destruct (variant_bounds dy Hy) as [Hy1 Hy2].
  change (Z.shiftl 0xc000 48) with (12 * 2 ^ 60).
  change (Z.shiftl 0x8000 48) with (8 * 2 ^ 60).
  change (Z.shiftl 0xf000 64) with (15 * 2 ^ 76).
  change (Z.shiftl 4 76) with (4 * 2 ^ 76).
  replace (va * 2 ^ 80 + (dx * 2 ^ 76 + (vb * 2 ^ 64 + (dy * 2 ^ 60 + vc))))
    with ((va * 2 ^ 16 + dx * 2 ^ 12 + vb) * 2 ^ (60 + 4) + (dy * 2 ^ 60 + vc))
    by (change (2 ^ (60 + 4)) with (2 ^ 64); lia).
  rewrite land_field by (try assumption; lia).
  rewrite lor_field by (try assumption; lia).
  set (dy' := Z.lor (Z.land dy (Z.lnot 12)) 8) in *.
  set (lo := vb * 2 ^ 64 + (dy' * 2 ^ 60 + vc)).
  assert (Hlo : 0 <= lo < 2 ^ 76) by (unfold lo; lia).
  replace ((va * 2 ^ 16 + dx * 2 ^ 12 + vb) * 2 ^ (60 + 4) + (dy' * 2 ^ 60 + vc))
    with (va * 2 ^ (76 + 4) + (dx * 2 ^ 76 + lo))
    by (unfold lo; change (2 ^ (60 + 4)) with (2 ^ 64);
        change (2 ^ (76 + 4)) with (2 ^ 80); lia).
  rewrite land_field by (try assumption; try lia; rewrite version_bounds; lia).
  rewrite version_bounds by assumption.
  rewrite lor_field by (try assumption; try lia; vm_compute; intuition discriminate).
  change (2 ^ (76 + 4)) with (2 ^ 80). reflexivity.
Qed.

End Bits.

(** *** Digits *)

(** Decides a digit by going through the sixteen of them. *)
Ltac each_digit c :=
  repeat match goal with
         | |- context [Ascii.eqb c ?x] =>
             let E := fresh "E" in
             destruct (Ascii.eqb c x) eqn:E;
             [apply Ascii.eqb_eq in E; subst c|]
         end.

Lemma digit_of_hexdigit c d :
  digit_of c = Some d -> (0 <= d < 16)%Z /\ str.hexdigit d = c.
Proof.
  unfold digit_of, str.hexdigits. cbn [index_of].
  each_digit c; intros [= <-]; split; try reflexivity; lia.
Qed.

Lemma is_hex_hexdigit d : (0 <= d < 16)%Z -> is_hex (str.hexdigit d) = true.
Proof.
  revert d. apply nibble_cases. intros i Hi.
  do 16 (destruct i as [|i]; [reflexivity|]). lia.
Qed.

Lemma hex_value_bound s v :
  hex_value s = Some v -> (0 <= v < 16 ^ Z.of_nat (String.length s))%Z.
Proof.
  revert v. induction s as [|c s IH]; intros v; cbn [hex_value String.length].
  - intros [= <-]. simpl. lia.
  - destruct (digit_of c) as [d|] eqn:Ed; [|discriminate].
    destruct (hex_value s) as [w|]; [|discriminate]. intros [= <-].
    destruct (digit_of_hexdigit _ _ Ed) as [Hd _].
    specialize (IH w eq_refl).
    rewrite Nat2Z.inj_succ, Z.pow_succ_r by lia. nia.
Qed.

(** The low digits of a number do not depend on what is above them. *)
Lemma hex_fixed_low w a r :
  str.hex_fixed w (a * 16 ^ Z.of_nat w + r) = str.hex_fixed w r.
Proof.
  revert a. induction w as [|w IH]; intros a; [reflexivity|].
  cbn [str.hex_fixed]. rewrite Nat2Z.inj_succ, Z.pow_succ_r by lia.
  replace (a * (16 * 16 ^ Z.of_nat w) + r)%Z
    with ((a * 16) * 16 ^ Z.of_nat w + r)%Z by lia.
  rewrite IH. f_equal. f_equal.
  rewrite Z.div_add_l by (apply Z.pow_nonzero; lia).
  rewrite Z.add_comm, Z_mod_plus_full. reflexivity.
Qed.

(** Writing the value of a string of digits gives the string back. *)
Lemma hex_fixed_value s v :
  hex_value s = Some v -> str.hex_fixed (String.length s) v = s.
Proof.
  revert v. induction s as [|c s IH]; intros v; cbn [hex_value String.length].
  - reflexivity.
  - destruct (digit_of c) as [d|] eqn:Ed; [|discriminate].
    destruct (hex_value s) as [w|] eqn:Ew; [|discriminate]. intros [= <-].
    destruct (digit_of_hexdigit _ _ Ed) as [Hd Hc].
    pose proof (hex_value_bound _ _ Ew) as Hw.
    cbn [str.hex_fixed]. rewrite hex_fixed_low, (IH w eq_refl). f_equal.
    rewrite Z.div_add_l by (apply Z.pow_nonzero; lia).
    rewrite (Z.div_small w) by exact Hw.
    rewrite Z.add_0_r, Z.mod_small by lia. exact Hc.
Qed.

Lemma hex_fixed_is_hex w n : all_chars is_hex (str.hex_fixed w n) = true.
Proof.
  induction w as [|w IH]; [reflexivity|]. cbn [str.hex_fixed all_chars].
  rewrite IH, is_hex_hexdigit; [reflexivity|].
  apply Z.mod_pos_bound. lia.
Qed.

Lemma hex_value_is_hex s : all_chars is_hex s = true -> exists v, hex_value s = Some v.
Proof.
  induction s as [|c s IH]; cbn [all_chars hex_value]; [eauto|].
  intros H. apply andb_true_iff in H. destruct H as [Hc Hs].
  destruct (IH Hs) as [w ->]. unfold is_hex in Hc.
  destruct (digit_of c) as [d|]; [eauto|discriminate].
Qed.

Lemma hex_value_app p q :
  hex_value (p ++ q) =
    match hex_value p, hex_value q with
    | Some a, Some b => Some (a * 16 ^ Z.of_nat (String.length q) + b)%Z
    | _, _ => None
    end.
Proof.
  induction p as [|c p IH]; cbn [append hex_value].
  - destruct (hex_value q); [f_equal; lia|reflexivity].
  - rewrite IH. destruct (digit_of c) as [d|]; [|reflexivity].
    destruct (hex_value p) as [a|]; [|reflexivity].
    destruct (hex_value q) as [b|]; [|reflexivity].
    f_equal. rewrite append_length, Nat2Z.inj_add, Z.pow_add_r by lia. lia.
Qed.

Lemma format_032x_128 n :
  (0 <= n < 2 ^ 128)%Z -> str.format_032x n = str.hex_fixed 32 n.
Proof.
  intros Hn. unfold str.format_032x. f_equal. apply Nat.max_l.
  assert (Hl : (Z.log2 n < 128)%Z).
  { destruct (Z.eq_dec n 0) as [->|Hz]; [reflexivity|].
    apply Z.log2_lt_pow2; lia. }
  pose proof (Z.log2_nonneg n).
  assert (Z.log2 n / 4 + 1 <= 32)%Z.
  { assert (Z.log2 n / 4 < 32)%Z by (apply Z.div_lt_upper_bound; lia). lia. }
  lia.
Qed.

(** *** Strings *)

Lemma string_split n s :
  (n <= String.length s)%nat ->
  exists p q, s = (p ++ q)%string /\ String.length p = n.
Proof.
  revert s. induction n as [|n IH]; intros s Hn.
  - exists EmptyString, s. now split.
  - destruct s as [|c s]; [simpl in Hn; lia|].
    destruct (IH s) as (p & q & -> & Hp); [simpl in Hn; lia|].
    exists (String c p), q. split; [reflexivity|]. simpl. now rewrite Hp.
Qed.

Lemma eqb_app_l a p q : String.eqb (a ++ p) (a ++ q) = String.eqb p q.
Proof.
  induction a as [|c a IH]; [reflexivity|]. cbn [append String.eqb].
  now rewrite Ascii.eqb_refl, IH.
Qed.

Lemma get_app a c r : String.get (String.length a) (a ++ String c r) = Some c.
Proof. induction a as [|x a IH]; [reflexivity|]. exact IH. Qed.

Lemma get_app_after a n s :
  String.get (String.length a + n) (a ++ s) = String.get n s.
Proof. induction a as [|x a IH]; [reflexivity|]. exact IH. Qed.

Lemma all_chars_app p a b :
  all_chars p (a ++ b) = all_chars p a && all_chars p b.
Proof.
  induction a as [|c a IH]; [reflexivity|]. cbn [append all_chars].
  now rewrite IH, andb_assoc.
Qed.

(** *** Removing and stripping *)

Lemma remove_hyphen_cons c r :
  str.remove "-" (String c r)
  = if Ascii.eqb c "-" then str.remove "-" r else String c (str.remove "-" r).
Proof.
  unfold str.remove. cbn [str.remove_from String.prefix String.length Nat.sub].
  destruct (Ascii.ascii_dec "-" c) as [<-|Hne]; [now destruct r|].
  destruct (Ascii.eqb c "-") eqn:E; [|reflexivity].
  apply Ascii.eqb_eq in E. congruence.
Qed.

Lemma remove_absent x old s :
  all_chars (fun c => negb (Ascii.eqb c x)) s = true ->
  str.remove (String x old) s = s.
Proof.
  unfold str.remove. induction s as [|c s IH]; [reflexivity|].
  cbn [all_chars str.remove_from String.prefix]. intros H.
  apply andb_true_iff in H. destruct H as [Hc Hs].
  destruct (Ascii.ascii_dec x c) as [<-|Hne].
  - now rewrite Ascii.eqb_refl in Hc.
  - now rewrite (IH Hs).
Qed.

Lemma lstrip_absent chars s :
  all_chars (fun c => negb (str.member c chars)) s = true ->
  str.lstrip chars s = s.
Proof.
  destruct s as [|c s]; [reflexivity|]. cbn [all_chars str.lstrip].
  intros H. apply andb_true_iff in H. destruct H as [Hc _].
  apply negb_true_iff in Hc. now rewrite Hc.
Qed.

Lemma rstrip_absent chars s :
  all_chars (fun c => negb (str.member c chars)) s = true ->
  str.rstrip chars s = s.
Proof.
  induction s as [|c s IH]; [reflexivity|]. cbn [all_chars str.rstrip].
  intros H. apply andb_true_iff in H. destruct H as [Hc Hs].
  rewrite (IH Hs). apply negb_true_iff in Hc.
  destruct s; [now rewrite Hc|reflexivity].
Qed.

Lemma all_chars_impl (p q : ascii -> bool) s :
  (forall c, p c = true -> q c = true) ->
  all_chars p s = true -> all_chars q s = true.
Proof.
  intros Hpq. induction s as [|c s IH]; [reflexivity|]. cbn [all_chars].
  intros H. apply andb_true_iff in H. destruct H as [Hc Hs].
  now rewrite (Hpq _ Hc), (IH Hs).
Qed.

(** A string of digits and hyphens has no prefix and no braces to lose. *)
Lemma plain_is_kept s :
  all_chars hex_or_hyphen s = true ->
  str.strip "{}" (str.remove "uuid:" (str.remove "urn:" s)) = s.
Proof.
  intros H.
  assert (Hu : all_chars (fun c => negb (Ascii.eqb c "u")) s = true).
  { revert H. apply all_chars_impl. intros c Hc.
    destruct (Ascii.eqb c "u") eqn:E; [|reflexivity].
    apply Ascii.eqb_eq in E. subst c. discriminate. }
  assert (Hb : all_chars (fun c => negb (str.member c "{}")) s = true).
  { revert H. apply all_chars_impl. intros c Hc. cbn [str.member].
    destruct (Ascii.eqb c "{") eqn:E1;
      [apply Ascii.eqb_eq in E1; subst c; discriminate|].
    destruct (Ascii.eqb c "}") eqn:E2;
      [apply Ascii.eqb_eq in E2; subst c; discriminate|reflexivity]. }
  rewrite (remove_absent "u" "rn:" s Hu), (remove_absent "u" "uid:" s Hu).
  unfold str.strip.
  now rewrite lstrip_absent, rstrip_absent.
Qed.

Lemma remove_hyphen_plain s :
  all_chars is_hex (str.remove "-" s) = all_chars hex_or_hyphen s.
Proof.
  induction s as [|c s IH]; [reflexivity|].
  rewrite remove_hyphen_cons. cbn [all_chars]. unfold hex_or_hyphen at 1.
  destruct (Ascii.eqb c "-") eqn:E.
  - apply Ascii.eqb_eq in E. subst c. rewrite IH. reflexivity.
  - cbn [all_chars]. now rewrite IH, orb_false_r.
Qed.

(** *** The test *)

Lemma eqb_cons c1 p c2 q :
  String.eqb (String c1 p) (String c2 q) = Ascii.eqb c1 c2 && String.eqb p q.
Proof. reflexivity. Qed.

Lemma version_char x : Ascii.eqb (str.hexdigit 4) x = str.member x "4".
Proof. cbn [str.member]. rewrite orb_false_r. apply Ascii.eqb_sym. Qed.

Lemma variant_char y dy :
  digit_of y = Some dy ->
  Ascii.eqb (str.hexdigit (Z.lor (Z.land dy (Z.lnot 12)) 8)) y
  = str.member y "89ab".
Proof.
  unfold digit_of, str.hexdigits. cbn [index_of].
  each_digit y; intros [= <-]; reflexivity.
Qed.

(** For 32 digits, the test compares the digits with themselves after the
    version and the variant were forced: it holds when they were there. *)
Lemma v4_digits t v :
  String.length t = 32 -> hex_value t = Some v ->
  String.eqb
    (uuid.hex
       (Z.lor
          (Z.land
             (Z.lor (Z.land v (Z.lnot (Z.shiftl 0xc000 48))) (Z.shiftl 0x8000 48))
             (Z.lnot (Z.shiftl 0xf000 64)))
          (Z.shiftl 4 76)))
    t
  = char_at 12 t "4" && char_at 16 t "89ab".
Proof.
  intros Hlen Hv.
  destruct (string_split 12 t) as (a & r1 & -> & Ha); [lia|].
  rewrite append_length, Ha in Hlen.
  destruct r1 as [|x r2]; [simpl in Hlen; lia|]. cbn [String.length] in Hlen.
  destruct (string_split 3 r2) as (b & r3 & -> & Hb); [lia|].
  rewrite append_length, Hb in Hlen.
  destruct r3 as [|y c]; [simpl in Hlen; lia|]. cbn [String.length] in Hlen.
  assert (Hc : String.length c = 15) by lia. clear Hlen.
  rewrite hex_value_app in Hv. cbn [hex_value] in Hv.
  rewrite hex_value_app in Hv. cbn [hex_value] in Hv.
  destruct (hex_value a) as [va|] eqn:Eva; [|discriminate].
  destruct (digit_of x) as [dx|] eqn:Edx; [|discriminate].
  destruct (hex_value b) as [vb|] eqn:Evb; [|discriminate].
  destruct (digit_of y) as [dy|] eqn:Edy; [|discriminate].
  destruct (hex_value c) as [vc|] eqn:Evc; [|discriminate].
  cbn [String.length] in Hv. rewrite append_length in Hv.
  cbn [String.length] in Hv. rewrite Hb, Hc in Hv.
  change (Z.of_nat (S (3 + 16))) with 20%Z in Hv.
  change (Z.of_nat (3 + 16)) with 19%Z in Hv.
  change (Z.of_nat 16) with 16%Z in Hv. change (Z.of_nat 15) with 15%Z in Hv.
  change (16 ^ 20)%Z with (2 ^ 80)%Z in Hv.
  change (16 ^ 19)%Z with (2 ^ 76)%Z in Hv.
  change (16 ^ 16)%Z with (2 ^ 64)%Z in Hv.
  change (16 ^ 15)%Z with (2 ^ 60)%Z in Hv.
  injection Hv as <-.
  destruct (digit_of_hexdigit _ _ Edx) as [Hdx _].
  destruct (digit_of_hexdigit _ _ Edy) as [Hdy _].
  pose proof (hex_value_bound _ _ Evb) as Hvb. rewrite Hb in Hvb.
  change (16 ^ Z.of_nat 3)%Z with (2 ^ 12)%Z in Hvb.
  pose proof (hex_value_bound _ _ Evc) as Hvc. rewrite Hc in Hvc.
  change (16 ^ Z.of_nat 15)%Z with (2 ^ 60)%Z in Hvc.
  rewrite set_version_4 by assumption.
  destruct (variant_bounds dy Hdy) as [_ Hdy'].
  set (dy' := Z.lor (Z.land dy (Z.lnot 12)) 8) in *.
  set (t' := (a ++ String (str.hexdigit 4)
                     (b ++ String (str.hexdigit dy') c))%string).
  assert (Ht' : hex_value t'
                = Some (va * 2 ^ 80
                        + (4 * 2 ^ 76 + (vb * 2 ^ 64 + (dy' * 2 ^ 60 + vc))))%Z).
  { unfold t'. rewrite hex_value_app. cbn [hex_value].
    rewrite hex_value_app. cbn [hex_value].
    rewrite Eva, Evb, Evc.
    assert (E4 : digit_of (str.hexdigit 4) = Some 4%Z) by reflexivity.
    assert (Ey : digit_of (str.hexdigit dy') = Some dy').
    { clearbody dy'. clear -Hdy'. revert dy' Hdy'. apply nibble_cases.
      intros i Hi. do 16 (destruct i as [|i]; [reflexivity|]). lia. }
    rewrite E4, Ey.
    cbn [String.length]. rewrite append_length.
    cbn [String.length]. rewrite Hb, Hc. reflexivity. }
  assert (Hlen' : String.length t' = 32).
  { unfold t'. rewrite append_length. cbn [String.length].
    rewrite append_length. cbn [String.length]. lia. }
  pose proof (hex_value_bound _ _ Ht') as Hrange. rewrite Hlen' in Hrange.
  change (16 ^ Z.of_nat 32)%Z with (2 ^ 128)%Z in Hrange.
  unfold uuid.hex. rewrite (format_032x_128 _ Hrange).
  rewrite <- Hlen', (hex_fixed_value _ _ Ht').
  unfold t'. rewrite eqb_app_l, eqb_cons, eqb_app_l, eqb_cons.
  rewrite String.eqb_refl, andb_true_r.
  unfold char_at.
  replace 16 with (String.length a + S (String.length b)) by lia.
  rewrite get_app_after. cbn [String.get]. rewrite get_app.
  replace 12 with (String.length a) by exact Ha. rewrite get_app.
  subst dy'. now rewrite version_char, (variant_char _ _ Edy).
Qed.

Section UuidV4.

Variable int_ : string -> result Z.
Hypothesis int_reads : reads_hex int_.

(** [is_uuid_v4] holds exactly of the strings that, once their hyphens are
    taken out (wherever they stand), are 32 lower-case hexadecimal digits
    with the version digit 4 and a variant digit among 8, 9, a, b.  Upper
    case digits, braces and the prefixes [urn:] and [uuid:], which [UUID]
    accepts, make it false. *)
Theorem is_uuid_v4_spec (uuid_or_name : string) :
  is_uuid_v4 int_ uuid_or_name = v4_hex (str.remove "-" uuid_or_name).
Proof.
  pose proof (remove_hyphen_plain uuid_or_name) as Hhex.
  unfold v4_hex. destruct (all_chars hex_or_hyphen uuid_or_name) eqn:Hp.
  - unfold is_uuid_v4, uuid.UUID. cbv zeta.
    rewrite (plain_is_kept _ Hp), Hhex.
    set (t := str.remove "-" uuid_or_name) in *.
    destruct (String.length t =? 32)%nat eqn:El; [|reflexivity].
    apply Nat.eqb_eq in El.
    destruct (hex_value_is_hex _ Hhex) as [v Hv].
    assert (Hne : t <> EmptyString) by (intros E; rewrite E in El; discriminate).
    rewrite (int_reads t v Hne Hv).
    pose proof (hex_value_bound _ _ Hv) as Hb. rewrite El in Hb.
    change (16 ^ Z.of_nat 32)%Z with (Z.shiftl 1 128) in Hb.
    assert (Hr : ((0 <=? v)%Z && (v <? Z.shiftl 1 128)%Z) = true).
    { apply andb_true_iff. split; [apply Z.leb_le|apply Z.ltb_lt]; lia. }
    rewrite Hr. cbn [negb andb]. change ((1 <=? 4)%Z && (4 <=? 5)%Z) with true.
    cbn [negb]. now rewrite (v4_digits t v El Hv).
  - rewrite Hhex, andb_false_r. cbn [andb].
    unfold is_uuid_v4. destruct (uuid.UUID int_ uuid_or_name 4) as [u|e];
      [|reflexivity].
    destruct (String.eqb (uuid.hex u) (str.remove "-" uuid_or_name)) eqn:E;
      [|reflexivity].
    apply String.eqb_eq in E. rewrite <- E in Hhex.
    unfold uuid.hex, str.format_032x in Hhex.
    now rewrite hex_fixed_is_hex in Hhex.
Qed.

End UuidV4.

Lemma int_lower_reads : reads_hex int_lower.
Proof.
  intros s v Hs Hv. destruct s as [|c s]; [congruence|].
  unfold int_lower. now rewrite Hv.
Qed.

Lemma is_uuid_v4_spec_witness :
  is_uuid_v4 int_lower "256b25f4-4cfb-4684-b7a8-73872ef455a1" = true
  /\ is_uuid_v4 int_lower "256B25F4-4CFB-4684-B7A8-73872EF455A1" = false
  /\ is_uuid_v4 int_lower "256b25f4-4cfb-1684-b7a8-73872ef455a1" = false.
Proof.
  split; [|split].
  - apply (eq_trans (is_uuid_v4_spec int_lower int_lower_reads
                       "256b25f4-4cfb-4684-b7a8-73872ef455a1")).
    reflexivity.
  - apply (eq_trans (is_uuid_v4_spec int_lower int_lower_reads
                       "256B25F4-4CFB-4684-B7A8-73872EF455A1")).
    reflexivity.
  - apply (eq_trans (is_uuid_v4_spec int_lower int_lower_reads
                       "256b25f4-4cfb-1684-b7a8-73872ef455a1")).
    reflexivity.
Defined.

(** ** The secrets made from a GitLab token *)

Lemma sextet_bits_sextet b5 b4 b3 b2 b1 b0 :
  sextet_bits (base64.sextet b5 b4 b3 b2 b1 b0) = Some (b5, b4, b3, b2, b1, b0).
Proof. destruct b5, b4, b3, b2, b1, b0; reflexivity. Qed.

Lemma sextet_is_no_pad b5 b4 b3 b2 b1 b0 :
  Ascii.eqb (base64.sextet b5 b4 b3 b2 b1 b0) base64.pad = false.
Proof. destruct b5, b4, b3, b2, b1, b0; reflexivity. Qed.

(** The characters of the alphabet, and the padding, are their own
    UTF-8. *)
Lemma decode_sextet b5 b4 b3 b2 b1 b0 rest :
  utf8.decode (String (base64.sextet b5 b4 b3 b2 b1 b0) rest)
  = match utf8.decode rest with
    | Some s => Some (String (base64.sextet b5 b4 b3 b2 b1 b0) s)
    | None => None
    end.
Proof. destruct b5, b4, b3, b2, b1, b0; reflexivity. Qed.

Lemma decode_pad rest :
  utf8.decode (String base64.pad rest)
  = match utf8.decode rest with
    | Some s => Some (String base64.pad s)
    | None => None
    end.
Proof. reflexivity. Qed.

(** Induction on a string, three characters at a time. *)
Lemma string_ind3 (P : string -> Prop) :
  P EmptyString ->
  (forall a, P (String a EmptyString)) ->
  (forall a b, P (String a (String b EmptyString))) ->
  (forall a b c rest, P rest -> P (String a (String b (String c rest)))) ->
  forall s, P s.
Proof.
  intros H0 H1 H2 H3.
  assert (H : forall n s, String.length s <= n -> P s).
  { induction n as [|n IH]; intros s Hs.
    - destruct s; [exact H0|simpl in Hs; lia].
    - destruct s as [|a [|b [|c rest]]]; auto.
      apply H3. apply IH. simpl in Hs. lia. }
  intros s. now apply (H (String.length s)).
Qed.

Lemma b64decode_b64encode s : b64decode (base64.b64encode s) = Some s.
Proof.
  induction s as [|a|a b|a b c rest IH] using string_ind3.
  - reflexivity.
  - destruct a as [a0 a1 a2 a3 a4 a5 a6 a7].
    cbn [base64.b64encode b64decode].
    rewrite !sextet_bits_sextet. reflexivity.
  - destruct a as [a0 a1 a2 a3 a4 a5 a6 a7], b as [b0 b1 b2 b3 b4 b5 b6 b7].
    cbn [base64.b64encode b64decode].
    rewrite !sextet_bits_sextet, sextet_is_no_pad. reflexivity.
  - destruct a as [a0 a1 a2 a3 a4 a5 a6 a7], b as [b0 b1 b2 b3 b4 b5 b6 b7],
      c as [c0 c1 c2 c3 c4 c5 c6 c7].
    cbn [base64.b64encode b64decode].
    rewrite !sextet_bits_sextet, !sextet_is_no_pad, IH. reflexivity.
Qed.

Lemma decode_b64encode s :
  utf8.decode (base64.b64encode s) = Some (base64.b64encode s).
Proof.
  induction s as [|a|a b|a b c rest IH] using string_ind3.
  - reflexivity.
  - destruct a as [a0 a1 a2 a3 a4 a5 a6 a7]. cbn [base64.b64encode].
    now rewrite !decode_sextet, !decode_pad.
  - destruct a as [a0 a1 a2 a3 a4 a5 a6 a7], b as [b0 b1 b2 b3 b4 b5 b6 b7].
    cbn [base64.b64encode]. now rewrite !decode_sextet, !decode_pad.
  - destruct a as [a0 a1 a2 a3 a4 a5 a6 a7], b as [b0 b1 b2 b3 b4 b5 b6 b7],
      c as [c0 c1 c2 c3 c4 c5 c6 c7].
    cbn [base64.b64encode]. now rewrite !decode_sextet, IH.
Qed.

Lemma decode_encode s : utf8.decode (utf8.encode s) = Some s.
Proof.
  induction s as [|c s IH]; [reflexivity|].
  destruct c as [[|] [|] [|] [|] [|] [|] [|] [|]];
    cbn [utf8.encode utf8.encode_char append utf8.decode];
    now rewrite IH.
Qed.

(** The value made of a string is read back as the string. *)
Lemma b64_of_string s :
  b64_of (VStr s) = Ok (base64.b64encode (utf8.encode s))
  /\ decoded (base64.b64encode (utf8.encode s)) = Some s.
Proof.
  split.
  - unfold b64_of, bytes_decode. cbn [encode_UTF8].
    now rewrite decode_b64encode.
  - unfold decoded. now rewrite b64decode_b64encode, decode_encode.
Qed.

Section GitlabSecrets.

Variable cfg : config.
Variable env : collaborators.
Variable requests_get_user : user_url -> result Response.
Variable gitlab_response : string.
Variable log : list user_url.

(** From the response of GitLab with the string [access_token], and the
    user, with the string [username], that GitLab names for this token,
    [_format_gitlab_secrets] makes the secrets [gitlab_access_token] and
    [gitlab_user], both of type [env]: their values are base64 text that
    reads back as the token and as the username.  One request was made,
    with the token. *)
Theorem format_gitlab_secrets_encodes (response user : value)
    (access_token username : string) (answer : Response) :
  json_loads env gitlab_response = Ok response ->
  getitem response "access_token" = Ok (VStr access_token) ->
  requests_get_user (user_request cfg (VStr access_token)) = Ok answer ->
  json_loads env (content answer) = Ok user ->
  getitem user "username" = Ok (VStr username) ->
  exists token_value user_value,
    _format_gitlab_secrets cfg env requests_get_user gitlab_response log
      = (Ok (gitlab_secrets token_value user_value),
         log ++ [user_request cfg (VStr access_token)])
    /\ decoded token_value = Some access_token
    /\ decoded user_value = Some username.
Proof.
  intros Hr Ht Hg Hu Hn.
  destruct (b64_of_string access_token) as [Et Dt].
  destruct (b64_of_string username) as [En Dn].
  exists (base64.b64encode (utf8.encode access_token)),
    (base64.b64encode (utf8.encode username)).
  split; [|now split].
  unfold _format_gitlab_secrets. run_M. rewrite Hr, Ht. cbv zeta.
  unfold user_request in Hg. rewrite Hg, Hu, Et, Hn, En. reflexivity.
Qed.

(** [_format_gitlab_secrets] asks GitLab at most once, and only after it
    read [access_token] from the response, for the user of exactly that
    value; it returns only after the request.  A response that does not
    parse, or has no [access_token], makes it raise before any request. *)
Theorem format_gitlab_secrets_requests :
  (exists r requests,
     _format_gitlab_secrets cfg env requests_get_user gitlab_response log
       = (r, log ++ requests)
     /\ (requests = []
         \/ exists response access_token,
              json_loads env gitlab_response = Ok response
              /\ getitem response "access_token" = Ok access_token
              /\ requests = [user_request cfg access_token])
     /\ (forall secrets, r = Ok secrets -> requests <> []))
  /\ (forall e, json_loads env gitlab_response = Raise e ->
        _format_gitlab_secrets cfg env requests_get_user gitlab_response log
          = (Raise e, log))
  /\ (forall response e,
        json_loads env gitlab_response = Ok response ->
        getitem response "access_token" = Raise e ->
        _format_gitlab_secrets cfg env requests_get_user gitlab_response log
          = (Raise e, log)).
Proof.
  split; [|split].
  - exists (fst (_format_gitlab_secrets cfg env requests_get_user
                   gitlab_response log)).
    destruct (json_loads env gitlab_response) as [response|e] eqn:Er.
    + destruct (getitem response "access_token") as [access_token|e] eqn:Et.
      * exists [user_request cfg access_token].
        split; [|split; [right; eauto|discriminate]].
        rewrite (surjective_pairing (_format_gitlab_secrets _ _ _ _ _)) at 1.
        f_equal. unfold _format_gitlab_secrets, user_request. run_M.
        unfold ret. rewrite Er, Et. cbv zeta. split_cases; reflexivity.
      * exists []. rewrite app_nil_r.
        split; [|split; [now left|]];
          unfold _format_gitlab_secrets; run_M; rewrite Er, Et;
          [reflexivity|discriminate].
    + exists []. rewrite app_nil_r.
      split; [|split; [now left|]];
        unfold _format_gitlab_secrets; run_M; rewrite Er;
        [reflexivity|discriminate].
  - intros e He. unfold _format_gitlab_secrets. run_M. now rewrite He.
  - intros response e Hr He. unfold _format_gitlab_secrets. run_M.
    now rewrite Hr, He.
Qed.

(** A token that is no string (a number or null in the response of
    GitLab) is still sent to GitLab; only when the secrets are made, after
    the answer was parsed, [_format_gitlab_secrets] raises
    AttributeError. *)
Theorem format_gitlab_secrets_token_no_string (response user access_token : value)
    (answer : Response) :
  json_loads env gitlab_response = Ok response ->
  getitem response "access_token" = Ok access_token ->
  (forall text, access_token <> VStr text) ->
  requests_get_user (user_request cfg access_token) = Ok answer ->
  json_loads env (content answer) = Ok user ->
  exists message,
    _format_gitlab_secrets cfg env requests_get_user gitlab_response log
      = (Raise (AttributeError message),
         log ++ [user_request cfg access_token]).
Proof.
  intros Hr Ht Hs Hg Hu.
  assert (He : exists message, b64_of access_token = Raise (AttributeError message)).
  { destruct access_token; try (eexists; reflexivity).
    now destruct (Hs s). }
  destruct He as [message He]. exists message.
  unfold _format_gitlab_secrets. run_M. rewrite Hr, Ht. cbv zeta.
  unfold user_request in Hg. now rewrite Hg, Hu, He.
Qed.

End GitlabSecrets.

Lemma format_gitlab_secrets_encodes_witness :
  exists token_value user_value,
    _format_gitlab_secrets cfg_demo env_oauth gitlab_user_demo "token.json" []
      = (Ok (gitlab_secrets token_value user_value),
         [] ++ [user_request cfg_demo (VStr "glpat-jane")])
    /\ decoded token_value = Some "glpat-jane"
    /\ decoded user_value = Some "jane".
Proof.
  apply (format_gitlab_secrets_encodes cfg_demo env_oauth gitlab_user_demo
           "token.json" []
           (VDict [("access_token", VStr "glpat-jane");
                   ("token_type", VStr "bearer")])
           (VDict [("id", VInt 7); ("username", VStr "jane")])
           "glpat-jane" "jane"
           {| status_code := 200; content := "user.json" |}); reflexivity.
Defined.

Lemma format_gitlab_secrets_requests_witness :
  _format_gitlab_secrets cfg_demo env_oauth gitlab_user_demo "error.json" []
    = (Raise (KeyError "access_token"), []).
Proof.
  apply (proj2 (proj2 (format_gitlab_secrets_requests cfg_demo env_oauth
                         gitlab_user_demo "error.json" []))
           (VDict [("error", VStr "invalid_grant")])); reflexivity.
Defined.

Lemma format_gitlab_secrets_token_no_string_witness :
  exists message,
    _format_gitlab_secrets cfg_demo env_numeric_token gitlab_user_demo
        "token.json" []
      = (Raise (AttributeError message), [] ++ [user_request cfg_demo (VInt 42)]).
Proof.
  apply (format_gitlab_secrets_token_no_string cfg_demo env_numeric_token
           gitlab_user_demo "token.json" []
           (VDict [("access_token", VInt 42)])
           (VDict [("id", VInt 7); ("username", VStr "jane")])
           (VInt 42) {| status_code := 200; content := "user.json" |});
    try reflexivity.
  intros text H. discriminate H.
Defined.
